(** * TP/ICAP websocket price transport and Amberdata balance endpoint

    A shallow embedding of two parts of the external-adapters repository:

    - the TP/ICAP websocket transport ([updateTTL], the [open] handler and the
      [message] handler of [generateTransport]);
    - the Amberdata [balance] endpoint ([getBlockchainHeader], [getBalances]).

    JavaScript numbers are binary64 floats ([PrimFloat.float]), objects used
    as dictionaries are [gmap]s, optional fields are [option]s and a thrown
    exception is the [None] of the option monad (or an explicit rejection for
    promises).  Code that the transport and the endpoint import from other
    packages is taken as a parameter of the development. *)

From Stdlib Require Import ZArith String Ascii List Bool Lia.
From Stdlib Require Import Floats.PrimFloat.
From stdpp Require Import gmap strings list option.

Import ListNotations.
Local Open Scope Z_scope.
Local Open Scope string_scope.

(* ===================================================================== *)
(** * Part I: definitions                                                 *)
(* ===================================================================== *)

(** ** JavaScript primitives used by the two files *)

Module Js.

(** Strings are sequences of one-byte characters: the identifiers of the
    feed are ASCII, for which a byte is a UTF-16 code unit. *)

(** [s.slice(i, j)] for constant, non-negative [i <= j]: the characters of
    [s] at positions [i .. j-1], cut at the end of the string. *)
Definition slice (s : string) (i j : nat) : string :=
  String.substring i (j - i)%nat s.

(** [s.includes(needle)]: [needle] occurs at some position of [s]. *)
Fixpoint includes (needle s : string) : bool :=
  String.prefix needle s ||
  match s with
  | EmptyString => false
  | String _ s' => includes needle s'
  end.

(** [typeof i === 'number'] on a value of type [number | undefined]. *)
Definition isNum (i : option float) : bool :=
  match i with Some _ => true | None => false end.

(** Truthiness of a number: [0], [-0] and [NaN] are falsy. *)
Definition truthy_number (x : float) : bool :=
  negb (PrimFloat.eqb x 0%float || PrimFloat.is_nan x).

(** Truthiness of a string: only the empty string is falsy. *)
Definition truthy_string (s : string) : bool :=
  match s with EmptyString => false | String _ _ => true end.

(** Truthiness of an optional property ([undefined] is falsy). *)
Definition truthy_opt {A} (truthy : A -> bool) (o : option A) : bool :=
  match o with Some a => truthy a | None => false end.

(** [x === y] on strings, and on a number against a numeric literal. *)
Definition str_eq (s t : string) : bool := String.eqb s t.
Definition num_eq (x y : float) : bool := PrimFloat.eqb x y.

(** A template literal [`${v}`] of a value that may be [undefined]. *)
Definition template (v : option string) : string :=
  match v with Some s => s | None => "undefined" end.

End Js.

(** ** The response cache consumed by the transport *)

Module ResponseCacheModel.

(** What a cache entry holds: the stored value and its time-to-live. *)
Record CacheEntry (V : Type) := {
  entry_value : V;
  entry_ttl : Z
}.
Arguments entry_value {V} _.
Arguments entry_ttl {V} _.

(** Modelled from the spec: the storage engine of the response cache is not
    part of the sources; the core consumes it through [get], [set] and
    [setTTL].  [set(fingerprint, value, ttl)] writes the value under the
    fingerprint with the given TTL. *)
Definition set {V} (c : gmap string (CacheEntry V)) (key : string) (v : V) (ttl : Z)
  : gmap string (CacheEntry V) :=
  <[key := {| entry_value := v; entry_ttl := ttl |}]> c.

(** Modelled from the spec: [setTTL(fingerprint, ttl)] extends the TTL of
    the entry under the fingerprint, "leaving the stored value untouched";
    "if a fingerprint has no existing entry, the extension is a harmless
    no-op (never materializes a value)". *)
Definition setTTL {V} (c : gmap string (CacheEntry V)) (key : string) (ttl : Z)
  : gmap string (CacheEntry V) :=
  match c !! key with
  | Some e => <[key := {| entry_value := entry_value e; entry_ttl := ttl |}]> c
  | None => c
  end.

(** [get(fingerprint)]: the stored value, if any. *)
Definition get {V} (c : gmap string (CacheEntry V)) (key : string) : option V :=
  entry_value <$> c !! key.

(** The TTL currently attached to a fingerprint, if it has an entry. *)
Definition ttl_of {V} (c : gmap string (CacheEntry V)) (key : string) : option Z :=
  entry_ttl <$> c !! key.

End ResponseCacheModel.

(** ** The TP/ICAP websocket transport *)

Module TpIcap.
Import Js ResponseCacheModel.

(** [fvs] of a [WsMessage]. *)
Record Fvs := {
  CCY1 : option string;
  CCY2 : option string;
  ACTIV_DATE : option string;
  TIMACT : option string;
  BID : option float;
  ASK : option float;
  MID_PRICE : option float
}.

(** A frame as the handlers see it after [JSON.parse].  Every property may
    be missing at run time, which is what the handler's guards test for. *)
Record WsMessage := {
  msg : option string;
  pro : option string;
  rec : option string;
  sta : option float;
  img : option float;
  fvs : option Fvs
}.

(** [GeneratePriceOptions]: the stream the adapter accepts and the name of
    the parameter that carries the source. *)
Record GeneratePriceOptions := {
  streamName : string;
  sourceName : string
}.

Record AdapterSettings := {
  CACHE_MAX_AGE : Z;
  WS_API_ENDPOINT : string;
  WS_API_USERNAME : string;
  WS_API_PASSWORD : string
}.

(** A subscription parameter-tuple: an object of named string fields. *)
Abbreviation Params := (gmap string string).

Record Timestamps := {
  providerDataReceivedUnixMs : Z;
  providerDataStreamEstablishedUnixMs : option Z;
  providerIndicatedTimeUnixMs : option Z
}.

Record Response := {
  result : float;
  data_result : float;
  timestamps : Timestamps
}.

(** One element of the array the message handler returns. *)
Record ProviderResult := {
  params : Params;
  response : Response
}.

(** [transport.responseCache]. *)
Record ResponseCache := {
  rc_adapterName : string;
  rc_endpointName : string;
  rc_adapterSettings : AdapterSettings;
  cache : gmap string (CacheEntry Response)
}.

(** The fields of [WebSocketTransport] that [updateTTL] reads;
    [subscriptionSet] is what [subscriptionSet.getAll()] resolves to. *)
Record WebSocketTransport := {
  name : string;
  responseCache : ResponseCache;
  subscriptionSet : list Params
}.

(** The argument object of [calculateCacheKey]. *)
Record CacheKeyArgs := {
  transportName : string;
  data : Params;
  adapterName : string;
  endpointName : string;
  adapterSettings : AdapterSettings
}.

(** Modelled from the spec: [calculateCacheKey] belongs to the adapter
    framework and is not part of the sources.  The Cache Fingerprint is "a
    deterministic digest computed from {adapter identity, subscription
    parameter-tuple, adapter configuration}": a function of the argument
    object, whose digest is left open. *)
Definition CacheKeyFn : Type := CacheKeyArgs -> string.

(** The part of [decimal.js] the handler calls.  [new Decimal(v)] and
    [.add(v)] receive a value whose static type was cast with [as number],
    so it may be [undefined] at run time; [None] stands for a constructor
    that throws. *)
Record DecimalLib := {
  Decimal : Type;
  Decimal_new : option float -> option Decimal;
  Decimal_add : Decimal -> option float -> option Decimal;
  Decimal_div : Decimal -> float -> Decimal;
  Decimal_toNumber : Decimal -> float
}.

(** The outbound authentication directive. *)
Record AuthOptions := {
  auth_msg : string;
  auth_user : string;
  auth_pass : string;
  auth_mode : string
}.

Section Transport.
Context (calculateCacheKey : CacheKeyFn) (D : DecimalLib).
Context (generatePriceOptions : GeneratePriceOptions).

(** The key [updateTTL] computes for one entry of the subscription set. *)
Definition cacheKeyOf (transport : WebSocketTransport) (param : Params) : string :=
  calculateCacheKey
    {| transportName := name transport;
       data := param;
       adapterName := rc_adapterName (responseCache transport);
       endpointName := rc_endpointName (responseCache transport);
       adapterSettings := rc_adapterSettings (responseCache transport) |}.

(** [transport.responseCache.cache.setTTL(key, ttl)], a mutation of the
    cache inside the transport. *)
Definition cache_setTTL (transport : WebSocketTransport) (key : string) (ttl : Z)
  : WebSocketTransport :=
  let rc := responseCache transport in
  {| name := name transport;
     responseCache :=
       {| rc_adapterName := rc_adapterName rc;
          rc_endpointName := rc_endpointName rc;
          rc_adapterSettings := rc_adapterSettings rc;
          cache := setTTL (cache rc) key ttl |};
     subscriptionSet := subscriptionSet transport |}.

(** The body of the [forEach] in [updateTTL]. *)
Definition updateTTL_step (transport : WebSocketTransport) (param : Params)
  : WebSocketTransport :=
  let key := cacheKeyOf transport param in
  cache_setTTL transport key
    (CACHE_MAX_AGE (rc_adapterSettings (responseCache transport))).

(** [updateTTL]: for each entry of the subscription set, compute the cache
    key and update the TTL of its entry. *)
Definition updateTTL (transport : WebSocketTransport) : WebSocketTransport :=
  let sSet := subscriptionSet transport in
  fold_left updateTTL_step sSet transport.

(** [new Decimal(ASK).add(BID).div(2).toNumber()]. *)
Definition decimalMidpoint (ASK BID : option float) : option float :=
  a ← Decimal_new D ASK;
  s ← Decimal_add D a BID;
  Some (Decimal_toNumber D (Decimal_div D s 2%float)).

(** [MID_PRICE || new Decimal(ASK).add(BID).div(2).toNumber()]. *)
Definition computeResult (f : Fvs) : option float :=
  match MID_PRICE f with
  | Some m => if truthy_number m then Some m else decimalMidpoint (ASK f) (BID f)
  | None => decimalMidpoint (ASK f) (BID f)
  end.

(** The test of the heartbeat branch on the composite identifier. *)
Definition isHeartbeat (r : string) : bool :=
  includes "HBHHH" r && str_eq (slice r 22 24) (streamName generatePriceOptions).

(** The tick built at the end of the message handler. *)
Definition makeTick (r : string) (res : float) (received : Z) (established : option Z)
  : ProviderResult :=
  let base := slice r 5 8 in
  let quote := slice r 8 11 in
  let source := slice r 15 18 in
  {| params :=
       <[sourceName generatePriceOptions := source]>
         (<["quote" := quote]> (<["base" := base]> ∅));
     response :=
       {| result := res;
          data_result := res;
          timestamps :=
            {| providerDataReceivedUnixMs := received;
               providerDataStreamEstablishedUnixMs := established;
               providerIndicatedTimeUnixMs := None |} |} |}.

(** The [message] handler.  [now] is what [Date.now()] returns,
    [established] the module variable
    [providerDataStreamEstablishedUnixMs].  The handler returns the array
    of results ([None] when it throws) and the transport as the call
    leaves it; [updateTTL] is started without being awaited, and its
    pass over the subscription set is applied to the transport here. *)
Definition message (now : Z) (established : option Z)
    (tpTransport : WebSocketTransport) (message : WsMessage)
  : option (list ProviderResult) * WebSocketTransport :=
  let providerDataReceivedUnixMs := now in
  match msg message with
  | None => (Some [], tpTransport)
  | Some ty =>
    if str_eq ty "auth" then (Some [], tpTransport) else
    match fvs message, rec message with
    | Some f, Some r =>
      if negb (truthy_string r) || negb (truthy_opt (fun s => num_eq s 1%float) (sta message))
      then (Some [], tpTransport)
      else if isHeartbeat r then (Some [], updateTTL tpTransport)
      else
        let stream := slice r 31 34 in
        if negb (str_eq stream (streamName generatePriceOptions))
        then (Some [], tpTransport)
        else if negb (isNum (MID_PRICE f)) && negb (isNum (BID f) && isNum (ASK f))
        then (Some [], tpTransport)
        else
          match computeResult f with
          | Some res =>
            (Some [makeTick r res providerDataReceivedUnixMs established], tpTransport)
          | None => (None, tpTransport)
          end
    | _, _ => (Some [], tpTransport)
    end
  end.

End Transport.

(** *** The [open] handler *)

(** What arrives on the connection while [open] waits: the text of a frame
    either parses to an object or makes the listener throw. *)
Inductive Frame :=
| Unparsable
| Parsed (m : WsMessage).

(** The state the [open] handler acts on: the module variable
    [providerDataStreamEstablishedUnixMs], whether the promise it returned
    has resolved, and what was sent on the connection. *)
Record OpenState := {
  established : option Z;
  resolved : bool;
  sent : list AuthOptions
}.

(** [msg === 'auth' && sta === 1] on a parsed frame. *)
Definition isAuthAck (m : WsMessage) : bool :=
  truthy_opt (fun ty => str_eq ty "auth") (msg m) &&
  truthy_opt (fun s => num_eq s 1%float) (sta m).

(** The ['message'] listener that [open] installs; [now] is [Date.now()]. *)
Definition onOpenMessage (st : OpenState) (ev : Z * Frame) : OpenState :=
  let (now, frame) := ev in
  match frame with
  | Unparsable => st
  | Parsed m =>
    if isAuthAck m
    then {| established := Some now; resolved := true; sent := sent st |}
    else st
  end.

(** [open]: install the listener and send the authentication directive. *)
Definition open_ (settings : AdapterSettings) (established0 : option Z) : OpenState :=
  {| established := established0;
     resolved := false;
     sent := [ {| auth_msg := "auth";
                  auth_user := WS_API_USERNAME settings;
                  auth_pass := WS_API_PASSWORD settings;
                  auth_mode := "broadcast" |} ] |}.

(** The state of [open] after the frames [evs] arrived, in order. *)
Definition openAfter (settings : AdapterSettings) (established0 : option Z)
    (evs : list (Z * Frame)) : OpenState :=
  fold_left onOpenMessage evs (open_ settings established0).

(** *** Vocabulary of the statements *)

(** Two transports with the same adapter configuration: transport name,
    adapter name, endpoint name and adapter settings.  Their caches and
    subscription sets may differ. *)
Definition sameConfiguration (t1 t2 : WebSocketTransport) : Prop :=
  name t1 = name t2 /\
  rc_adapterName (responseCache t1) = rc_adapterName (responseCache t2) /\
  rc_endpointName (responseCache t1) = rc_endpointName (responseCache t2) /\
  rc_adapterSettings (responseCache t1) = rc_adapterSettings (responseCache t2).

(** The configured max-age of a transport. *)
Definition maxAge (t : WebSocketTransport) : Z :=
  CACHE_MAX_AGE (rc_adapterSettings (responseCache t)).

(** The cache of a transport. *)
Definition cacheOf (t : WebSocketTransport) : gmap string (CacheEntry Response) :=
  cache (responseCache t).

(** The fingerprints of the tuples in the subscription set. *)
Definition refreshKeys (calculateCacheKey : CacheKeyFn) (t : WebSocketTransport)
  : list string :=
  map (cacheKeyOf calculateCacheKey t) (subscriptionSet t).

(** An entry with its TTL set to [ttl] and its value kept. *)
Definition withTTL (ttl : Z) (e : CacheEntry Response) : CacheEntry Response :=
  {| entry_value := entry_value e; entry_ttl := ttl |}.

(** The first guard of the message handler:
    [!('msg' in message) || message.msg === 'auth']. *)
Definition noTypeOrAuth (m : WsMessage) : bool :=
  match msg m with None => true | Some ty => str_eq ty "auth" end.

(** The second guard: [!fvs || !rec || sta !== 1]. *)
Definition missingFields (m : WsMessage) : bool :=
  negb (bool_decide (is_Some (fvs m)))
  || negb (truthy_opt truthy_string (rec m))
  || negb (truthy_opt (fun s => num_eq s 1%float) (sta m)).

(** A frame that the heartbeat branch accepts, once past the guards. *)
Definition heartbeatFor (o : GeneratePriceOptions) (m : WsMessage) : bool :=
  truthy_opt (isHeartbeat o) (rec m).

(** The stream code of a price frame: [rec.slice(31, 34)]. *)
Definition streamCode (m : WsMessage) : option string :=
  (fun r => slice r 31 34) <$> rec m.

(** A frame that acknowledges the authentication, or not. *)
Definition frameIsAuthAck (ev : Z * Frame) : bool :=
  match snd ev with Unparsable => false | Parsed m => isAuthAck m end.

(** The time of the last acknowledgement among [evs], if any. *)
Definition lastAuthAck (evs : list (Z * Frame)) : option Z :=
  fst <$> list.last (List.filter frameIsAuthAck evs).

(** A stand-in for [decimal.js] whose arithmetic is binary64.  It agrees
    with decimal arithmetic where operands and results are small integers,
    which is all the examples below use it for; [new Decimal(undefined)]
    throws. *)
Definition binary64Decimal : DecimalLib :=
  {| Decimal := float;
     Decimal_new := fun v => v;
     Decimal_add := fun d v => (fun x => PrimFloat.add d x) <$> v;
     Decimal_div := fun d x => PrimFloat.div d x;
     Decimal_toNumber := fun d => d |}.

(** *** Sample data for the examples *)

(** The options of the TP adapter. *)
Definition tpOptions : GeneratePriceOptions :=
  {| streamName := "TP"; sourceName := "tpSource" |}.

Definition sampleSettings : AdapterSettings :=
  {| CACHE_MAX_AGE := 90000;
     WS_API_ENDPOINT := "wss://example.test/stream";
     WS_API_USERNAME := "user";
     WS_API_PASSWORD := "pass" |}.

(** A digest for the examples: the identity of the adapter followed by the
    base and the quote of the tuple. *)
Definition sampleCacheKey : CacheKeyFn := fun a =>
  adapterName a +:+ "-" +:+ endpointName a +:+ "-" +:+ transportName a +:+ "-"
  +:+ default "" (data a !! "base") +:+ "/" +:+ default "" (data a !! "quote").

Definition eurUsd : Params :=
  <["tpSource" := "GBL"]> (<["quote" := "USD"]> (<["base" := "EUR"]> ∅)).

Definition sampleResponse : Response :=
  {| result := 1%float;
     data_result := 1%float;
     timestamps :=
       {| providerDataReceivedUnixMs := 10;
          providerDataStreamEstablishedUnixMs := Some 5;
          providerIndicatedTimeUnixMs := None |} |}.

(** A transport subscribed to EUR/USD, with the cache [c]. *)
Definition sampleTransport (c : gmap string (CacheEntry Response)) : WebSocketTransport :=
  {| name := "ws";
     responseCache :=
       {| rc_adapterName := "TP";
          rc_endpointName := "price";
          rc_adapterSettings := sampleSettings;
          cache := c |};
     subscriptionSet := [eurUsd] |}.

Definition noFields : Fvs :=
  {| CCY1 := None; CCY2 := None; ACTIV_DATE := None; TIMACT := None;
     BID := None; ASK := None; MID_PRICE := None |}.

(** A [sub] frame with status 1 for the identifier [r]. *)
Definition subFrame (r : string) (f : Fvs) : WsMessage :=
  {| msg := Some "sub"; pro := Some "OMM"; rec := Some r;
     sta := Some 1%float; img := Some 1%float; fvs := Some f |}.

Definition heartbeatFrame : WsMessage :=
  subFrame "HBHHH:GBL.BIL.QTE.RTM!TP" noFields.

Definition eurUsdRec : string := "FXSPTEURUSDSPT:GBL.BIL.QTE.RTM!TP".

(** A EUR/USD price frame of the TP stream. *)
Definition priceFrame (mid bid ask : option float) : WsMessage :=
  subFrame eurUsdRec
    {| CCY1 := Some "EUR"; CCY2 := Some "USD";
       ACTIV_DATE := Some "2023-03-06"; TIMACT := Some "15:00:00";
       BID := bid; ASK := ask; MID_PRICE := mid |}.

(** The same frame on the ICAP stream. *)
Definition icapFrame : WsMessage :=
  subFrame "FXSPTEURUSDSPT:GBL.BIL.QTE.RTM!IC"
    {| CCY1 := Some "EUR"; CCY2 := Some "USD";
       ACTIV_DATE := Some "2023-03-06"; TIMACT := Some "15:00:00";
       BID := Some 1%float; ASK := Some 3%float; MID_PRICE := None |}.

Definition authAck : WsMessage :=
  {| msg := Some "auth"; pro := None; rec := None;
     sta := Some 1%float; img := None; fvs := None |}.

End TpIcap.

(** ** The Amberdata [balance] endpoint *)

Module Balance.
Import Js.

(** A JSON value as far as the endpoint looks at it: [balance] is the
    number [0] or whatever [response.data.payload.value] holds. *)
Inductive JsValue :=
| JNumber (x : float)
| JString (s : string).

(** One element of the input array. *)
Record Address := {
  address : option string;
  coin : option string;
  chain : option string
}.

(** [Account]: an address with its balance. *)
Record Account := {
  acc_address : option string;
  acc_coin : option string;
  acc_chain : option string;
  balance : JsValue
}.

(** The body of a provider response, as far as it is read:
    [response.data.payload.value], [None] when the body has no [payload]
    (reading [.value] of it then throws a [TypeError]). *)
Record ResponseData := {
  payload_value : option JsValue
}.

Record ResponseWithResult := {
  response : option ResponseData;
  result : Account;
  warning : option string
}.

Definition WARNING_NO_OPERATION_COIN : string := "No Operation: unsupported coin".
Definition WARNING_NO_OPERATION_TESTNET : string :=
  "No Operation: 'testnet' is only supported on 'eth'".
Definition WARNING_NO_OPERATION_CHAIN : string :=
  "No Operation: invalid chain parameter, must be one of 'mainnet' or 'testnet'".
Definition WARNING_NO_OPERATION_MISSING_ADDRESS : string :=
  "No Operation: address param is missing".

Definition getBalanceURI (address : string) : string :=
  "/api/v2/addresses/" +:+ address +:+ "/account-balances/latest".

(** The request configuration ([config.api] and what is built from it). *)
Record ReqConfig := {
  baseURL : string;
  url : string;
  headers : gmap string string
}.

(** What a promise settles to: a value, or the thrown value.  A string is
    thrown by [getBlockchainHeader]; [RequestRejected] stands for whatever
    [Requester.request] rejects with, [TypeError] for the error of reading a
    property of [undefined]. *)
Inductive Thrown :=
| ThrownString (s : string)
| RequestRejected
| TypeError.

Inductive Settled (A : Type) :=
| Fulfilled (a : A)
| Rejected (e : Thrown).
Arguments Fulfilled {A} _.
Arguments Rejected {A} _.

(** What the endpoint imports from the rest of the adapter and from the
    shared adapter library: the tables and predicates of the endpoint index
    ([isCoinType], [isChainType], [BLOCKCHAINS]), [getBaseURL] of the
    configuration, and [Requester.toVendorName] and [Requester.request]
    ([None]: the request is rejected). *)
Record Imports := {
  isCoinType : string -> bool;
  isChainType : string -> bool;
  BLOCKCHAINS : gmap string string;
  toVendorName : string -> gmap string string -> option string;
  getBaseURL : string;
  request : ReqConfig -> option ResponseData
}.

Section Endpoint.
Context (I : Imports).

Definition getBlockchainHeader (chain coin : string) : Thrown + string :=
  let network := toVendorName I coin (BLOCKCHAINS I) in
  if str_eq chain "testnet" then
    if truthy_opt (fun n => str_eq n "ethereum") network
    then inr "ethereum-rinkeby"
    else inl (ThrownString WARNING_NO_OPERATION_TESTNET)
  else inr (template network +:+ "-mainnet").

(** [{ ...addr, balance }]. *)
Definition withBalance (addr : Address) (b : JsValue) : Account :=
  {| acc_address := address addr;
     acc_coin := coin addr;
     acc_chain := chain addr;
     balance := b |}.

(** [if (!addr.coin) addr.coin = 'btc'], on the object [addr]. *)
Definition defaultCoin (addr : Address) : Address :=
  if negb (truthy_opt truthy_string (coin addr))
  then {| address := address addr; coin := Some "btc"; chain := chain addr |}
  else addr.

(** [if (!addr.chain) addr.chain = 'mainnet']. *)
Definition defaultChain (addr : Address) : Address :=
  if negb (truthy_opt truthy_string (chain addr))
  then {| address := address addr; coin := coin addr; chain := Some "mainnet" |}
  else addr.

(** A property that was tested truthy, read as a string. *)
Definition str (o : option string) : string := default "" o.

(** The callback that [getBalances] maps over the addresses.  [hdrs] is
    the object [config.api.headers]: the spread [{ ...config.api }] copies
    the reference, so every item writes its header into the same object;
    the callback returns that object as it leaves it.  The other fields
    of [config.api] are overwritten by [baseURL] and [url].  A request
    reads the configuration as it is when [Requester.request] is called. *)
Definition getBalance (hdrs : gmap string string) (addr : Address)
  : Settled ResponseWithResult * gmap string string :=
  let warnedResponse (w : string) :=
    {| result := withBalance addr (JNumber 0%float);
       response := None;
       warning := Some w |} in
  if negb (truthy_opt truthy_string (address addr))
  then (Fulfilled (warnedResponse WARNING_NO_OPERATION_MISSING_ADDRESS), hdrs)
  else
    let addr1 := defaultCoin addr in
    if negb (isCoinType I (str (coin addr1)))
    then (Fulfilled (warnedResponse WARNING_NO_OPERATION_COIN), hdrs)
    else
      let addr2 := defaultChain addr1 in
      if negb (isChainType I (str (chain addr2)))
      then (Fulfilled (warnedResponse WARNING_NO_OPERATION_CHAIN), hdrs)
      else
        match getBlockchainHeader (str (chain addr2)) (str (coin addr2)) with
        | inl e => (Rejected e, hdrs)
        | inr h =>
          let hdrs' := <["x-amberdata-blockchain-id" := h]> hdrs in
          let reqConfig :=
            {| baseURL := getBaseURL I;
               url := getBalanceURI (str (address addr2));
               headers := hdrs' |} in
          match request I reqConfig with
          | Some d =>
            match payload_value d with
            | Some v =>
              (Fulfilled {| response := Some d;
                            result := withBalance addr2 v;
                            warning := None |}, hdrs')
            | None => (Rejected TypeError, hdrs')
            end
          | None => (Rejected RequestRejected, hdrs')
          end
        end.

(** [addresses.map(async (addr) => ...)]: the callbacks run in order, each
    up to its request, on the shared headers object. *)
Fixpoint mapAddresses (hdrs : gmap string string) (addresses : list Address) : list (Settled ResponseWithResult) :=
  match addresses with
  | [] => []
  | addr :: rest =>
    let (out, hdrs') := getBalance hdrs addr in
    out :: mapAddresses hdrs' rest
  end.

Definition isThrownString {A} (s : Settled A) : bool :=
  match s with Rejected (ThrownString _) => true | _ => false end.

Definition isRejected {A} (s : Settled A) : bool :=
  match s with Rejected _ => true | Fulfilled _ => false end.

Definition fulfilledValues {A} (l : list (Settled A)) : list A :=
  omap (fun s => match s with Fulfilled a => Some a | Rejected _ => None end) l.

(** [Promise.all]: rejects with the first rejection to happen, fulfils
    with the array of values when there is none.  A callback that throws
    before its first [await] rejects during the [map] itself, ahead of
    every request; among those the first of the array wins.  Which of the
    later rejections is reported depends on the order in which the requests
    settle; the model takes the first of the array, and no statement below
    depends on that choice. *)
Definition promiseAll {A} (l : list (Settled A)) : Settled (list A) :=
  match List.find isThrownString l with
  | Some (Rejected e) => Rejected e
  | _ =>
    match List.find isRejected l with
    | Some (Rejected e) => Rejected e
    | _ => Fulfilled (fulfilledValues l)
    end
  end.

(** [getBalances(config, addresses)]. *)
Definition getBalances (api : ReqConfig) (addresses : list Address)
  : Settled (list ResponseWithResult) :=
  promiseAll (mapAddresses (headers api) addresses).

End Endpoint.

(** *** Vocabulary of the statements *)

(** The coin and the chain an item is looked up with, after the defaults. *)
Definition effectiveCoin (addr : Address) : string := str (coin (defaultCoin addr)).
Definition effectiveChain (addr : Address) : string :=
  str (chain (defaultChain (defaultCoin addr))).

(** An item that passes the three checks of the callback and asks for
    [testnet] on a coin whose network is not [ethereum]. *)
Definition testnetOffEthereum (I : Imports) (addr : Address) : bool :=
  truthy_opt truthy_string (address addr)
  && isCoinType I (effectiveCoin addr)
  && isChainType I (effectiveChain addr)
  && str_eq (effectiveChain addr) "testnet"
  && negb (truthy_opt (fun n => str_eq n "ethereum")
             (toVendorName I (effectiveCoin addr) (BLOCKCHAINS I))).

(** The warning the three checks of the callback answer an item with, if
    any: a missing address, an unsupported coin, an invalid chain. *)
Definition unsupportedReason (I : Imports) (addr : Address) : option string :=
  if negb (truthy_opt truthy_string (address addr))
  then Some WARNING_NO_OPERATION_MISSING_ADDRESS
  else if negb (isCoinType I (effectiveCoin addr))
  then Some WARNING_NO_OPERATION_COIN
  else if negb (isChainType I (effectiveChain addr))
  then Some WARNING_NO_OPERATION_CHAIN
  else None.

(** The result of an item that is answered with a warning. *)
Definition warned (addr : Address) (w : string) : ResponseWithResult :=
  {| response := None;
     result := withBalance addr (JNumber 0%float);
     warning := Some w |}.

(** An instance of the imports: the coins and chains the warning texts and
    the defaults of the endpoint name, a vendor table for them, and a
    provider that answers every request with the same balance. *)
Definition sampleImports : Imports :=
  {| isCoinType := fun c => bool_decide (c ∈ ["btc"; "eth"]);
     isChainType := fun c => bool_decide (c ∈ ["mainnet"; "testnet"]);
     BLOCKCHAINS := <["btc" := "bitcoin"]> (<["eth" := "ethereum"]> ∅);
     toVendorName := fun key names => names !! key;
     getBaseURL := "https://web3api.io";
     request := fun _ => Some {| payload_value := Some (JString "42") |} |}.

Definition sampleApi : ReqConfig :=
  {| baseURL := ""; url := ""; headers := <["x-api-key" := "secret"]> ∅ |}.

(** A batch of three: an address without coin and chain, a bitcoin address
    on [testnet], an ethereum address. *)
Definition sampleBatch : list Address :=
  [ {| address := Some "addr1"; coin := None; chain := None |};
    {| address := Some "addr2"; coin := Some "btc"; chain := Some "testnet" |};
    {| address := Some "addr3"; coin := Some "eth"; chain := Some "mainnet" |} ].

End Balance.

(** ** The rest of the [balance] endpoint: [reduceResponse] and [execute] *)

Module BalanceExecute.
Import Js Balance.

(** What [reduceResponse] builds: [{ data: { responses, result }, status }]. *)
Record Reduced := {
  data_responses : list (option ResponseData);
  data_result : list Account;
  status : Z
}.

(** The callback of the [reduce]: append the response and the result of the
    current item to the arrays of the accumulator. *)
Definition reduceResponse_step (accumulator : Reduced) (current : ResponseWithResult)
  : Reduced :=
  {| data_responses := data_responses accumulator ++ [response current];
     data_result := data_result accumulator ++ [result current];
     status := status accumulator |}.

Definition reduceResponse (responses : list ResponseWithResult) : Reduced :=
  fold_left reduceResponse_step responses
    {| data_responses := []; data_result := []; status := 200 |}.

(** The fields [execute] gives to [new AdapterError({...})]. *)
Record AdapterError := {
  jobRunID : string;
  message : string;
  statusCode : Z
}.

(** What [objectPath.get(request.data, dataPath)] finds: an array of
    addresses, or anything else ([undefined] included). *)
Inductive InputData :=
| NotAnArray
| AnArray (addresses : list Address).

(** What [execute] reads of a [Validator]: its [error], if any, and of
    [validated] the [id] and [data.dataPath]. *)
Record Validator (E : Type) := {
  error : option E;
  validated_id : string;
  validated_dataPath : option string
}.
Arguments error {E} _.
Arguments validated_id {E} _.
Arguments validated_dataPath {E} _.

(** What [execute] imports besides the imports of [getBalances]: the
    requests and the validation errors of the adapter library, its
    [Validator] (applied to the request and [inputParams]),
    [DEFAULT_DATA_PATH] of the configuration, and [objectPath.get] on the
    data of the request. *)
Record ExecuteImports := {
  AdapterRequest : Type;
  ValidationError : Type;
  newValidator : AdapterRequest -> Validator ValidationError;
  DEFAULT_DATA_PATH : string;
  objectPath_get : AdapterRequest -> string -> InputData
}.

(** What [execute] throws: the error of the validator, its own
    [AdapterError], or what [getBalances] rejected with. *)
Inductive ExecuteThrown (E : Type) :=
| ThrownValidation (e : E)
| ThrownAdapterError (e : AdapterError)
| ThrownByGetBalances (e : Thrown).
Arguments ThrownValidation {E} _.
Arguments ThrownAdapterError {E} _.
Arguments ThrownByGetBalances {E} _.

Section Execute.
Context (I : Imports) (X : ExecuteImports).

(** [data.dataPath || DEFAULT_DATA_PATH]. *)
Definition dataPathOf (v : Validator (ValidationError X)) : string :=
  if truthy_opt truthy_string (validated_dataPath v)
  then str (validated_dataPath v)
  else DEFAULT_DATA_PATH X.

(** The message of the error for an input that is not a non-empty array. *)
Definition nonEmptyArrayMessage (dataPath : string) : string :=
  "Input, at '" +:+ dataPath +:+ "' path, must be a non-empty array.".

(** [execute(config, request)]; [api] is [config.api]. *)
Definition execute (api : ReqConfig) (request : AdapterRequest X)
  : ExecuteThrown (ValidationError X) + Reduced :=
  let validator := newValidator X request in
  match error validator with
  | Some e => inl (ThrownValidation e)
  | None =>
    let jobRunID := validated_id validator in
    let dataPath := dataPathOf validator in
    let inputData := objectPath_get X request dataPath in
    let invalid :=
      inl (ThrownAdapterError
             {| jobRunID := jobRunID;
                message := nonEmptyArrayMessage dataPath;
                statusCode := 400 |}) in
    match inputData with
    | NotAnArray => invalid
    | AnArray [] => invalid
    | AnArray addresses =>
      match getBalances I api addresses with
      | Fulfilled responses => inr (reduceResponse responses)
      | Rejected e => inl (ThrownByGetBalances e)
      end
    end
  end.

(** The object [config.api.headers] after the callbacks of [getBalances]
    ran over [addresses], each on the object as the one before left it. *)
Definition headersAfter (hdrs : gmap string string) (addresses : list Address)
  : gmap string string :=
  fold_left (fun h addr => snd (getBalance I h addr)) addresses hdrs.

End Execute.

(** *** Vocabulary of the statements *)

(** The header the callback writes. *)
Definition blockchainIdHeader : string := "x-amberdata-blockchain-id".

(** What the result [r] of a fulfilled item says about its address: a
    warned item echoes the address as given with a zero balance; a looked-up
    item carries the coin and chain it was looked up with and the balance of
    the response, and no warning. *)
Definition itemResult (I : Imports) (addr : Address) (r : ResponseWithResult) : Prop :=
  acc_address (result r) = address addr /\
  match unsupportedReason I addr with
  | Some w => r = warned addr w
  | None =>
    warning r = None /\
    exists d v,
      response r = Some d /\ payload_value d = Some v /\
      result r = {| acc_address := address addr;
                    acc_coin := Some (effectiveCoin addr);
                    acc_chain := Some (effectiveChain addr);
                    balance := v |}
  end.

(** A result without its warning. *)
Definition withoutWarning (r : ResponseWithResult) : ResponseWithResult :=
  {| response := response r; result := result r; warning := None |}.

(** Imports of [execute] for the examples: a request is the array found at
    its path, the validator never fails and names no path. *)
Definition sampleExecuteImports : ExecuteImports :=
  {| AdapterRequest := InputData;
     ValidationError := string;
     newValidator := fun _ =>
       {| error := None; validated_id := "1"; validated_dataPath := None |};
     DEFAULT_DATA_PATH := "result";
     objectPath_get := fun request _ => request |}.

End BalanceExecute.

(* ===================================================================== *)
(** * Part II: properties                                                 *)
(* ===================================================================== *)

(** ** Strings *)

Module JsFacts.
Import Js.

Lemma app_nil (t : string) : "" +:+ t = t.
Proof. reflexivity. Qed.

Lemma app_cons (c : ascii) (s t : string) : String c s +:+ t = String c (s +:+ t).
Proof. reflexivity. Qed.

Lemma prefix_cons (c d : ascii) (n s : string) :
  String.prefix (String c n) (String d s)
  = if Ascii.ascii_dec c d then String.prefix n s else false.
Proof. reflexivity. Qed.

Lemma prefix_app (n s : string) :
  String.prefix n s = true <-> exists post, s = n +:+ post.
Proof.
  revert s. induction n as [|c n IH]; intros s.
  - split; [intros _; by exists s | by destruct s].
  - setoid_rewrite app_cons. destruct s as [|d s].
    + split; [discriminate | intros [post H]; discriminate].
    + rewrite prefix_cons. destruct (Ascii.ascii_dec c d) as [->|Hne].
      * rewrite IH. split; intros [post H]; exists post; congruence.
      * split; [discriminate | intros [post H]; congruence].
Qed.

Lemma includes_nil (n : string) : includes n "" = String.prefix n "" || false.
Proof. reflexivity. Qed.

Lemma includes_cons (n : string) (c : ascii) (s : string) :
  includes n (String c s) = String.prefix n (String c s) || includes n s.
Proof. reflexivity. Qed.

(** X4: [includes] finds exactly the strings that contain the needle as a
    contiguous part. *)
Lemma includes_spec (n s : string) :
  includes n s = true <-> exists pre post, s = pre +:+ n +:+ post.
Proof.
  induction s as [|c s IH].
  - rewrite includes_nil, orb_false_r, prefix_app. split.
    + intros [post H]. by exists "", post.
    + intros [pre [post H]]. destruct pre; [by exists post | discriminate].
  - rewrite includes_cons, orb_true_iff, prefix_app, IH. split.
    + intros [[post H] | [pre [post H]]].
      * by exists "", post.
      * exists (String c pre), post. rewrite app_cons. by rewrite H.
    + intros [pre [post H]]. destruct pre as [|d pre].
      * left. by exists post.
      * right. rewrite app_cons in H. simplify_eq. by exists pre, post.
Qed.

Lemma includes_nonempty (n s : string) :
  truthy_string n = true -> includes n s = true -> truthy_string s = true.
Proof. destruct n, s; simpl; try done. Qed.

Lemma str_eq_true (s t : string) : str_eq s t = true <-> s = t.
Proof. apply String.eqb_eq. Qed.

Lemma str_eq_false (s t : string) : str_eq s t = false <-> s <> t.
Proof. apply String.eqb_neq. Qed.

End JsFacts.

(** ** The TP/ICAP transport *)

Module TpIcapFacts.
Import Js JsFacts ResponseCacheModel TpIcap.

(** *** The cache *)

Lemma lookup_setTTL (c : gmap string (CacheEntry Response)) (key k : string) (ttl : Z) :
  setTTL c key ttl !! k = if decide (k = key) then withTTL ttl <$> c !! k else c !! k.
Proof.
  unfold setTTL. destruct (decide (k = key)) as [->|Hne].
  - destruct (c !! key) as [e|] eqn:E.
    + by rewrite lookup_insert_eq.
    + by rewrite E.
  - destruct (c !! key) as [e|] eqn:E; [|done].
    by rewrite lookup_insert_ne.
Qed.

Lemma setTTL_missing (c : gmap string (CacheEntry Response)) (key : string) (ttl : Z) :
  c !! key = None -> setTTL c key ttl = c.
Proof. unfold setTTL. by intros ->. Qed.

Lemma get_setTTL (c : gmap string (CacheEntry Response)) (key k : string) (ttl : Z) :
  get (setTTL c key ttl) k = get c k.
Proof.
  unfold get. rewrite lookup_setTTL. case_decide; [|done].
  by destruct (c !! k).
Qed.

Lemma withTTL_idem (ttl : Z) (o : option (CacheEntry Response)) :
  withTTL ttl <$> (withTTL ttl <$> o) = withTTL ttl <$> o.
Proof. by destruct o. Qed.

Section Refresh.
Context (calculateCacheKey : CacheKeyFn).

Abbreviation cacheKeyOf := (cacheKeyOf calculateCacheKey).
Abbreviation updateTTL_step := (updateTTL_step calculateCacheKey).
Abbreviation updateTTL := (updateTTL calculateCacheKey).

Lemma sameConfiguration_refl t : sameConfiguration t t.
Proof. by repeat split. Qed.

Lemma sameConfiguration_trans t1 t2 t3 :
  sameConfiguration t1 t2 -> sameConfiguration t2 t3 -> sameConfiguration t1 t3.
Proof. unfold sameConfiguration. intuition congruence. Qed.

Lemma cacheKeyOf_config t1 t2 p :
  sameConfiguration t1 t2 -> cacheKeyOf t1 p = cacheKeyOf t2 p.
Proof.
  intros (Hn & Ha & He & Hs). unfold TpIcap.cacheKeyOf.
  by rewrite Hn, Ha, He, Hs.
Qed.

Lemma maxAge_config t1 t2 : sameConfiguration t1 t2 -> maxAge t1 = maxAge t2.
Proof. intros (_ & _ & _ & Hs). unfold maxAge. by rewrite Hs. Qed.

Lemma updateTTL_step_config t p : sameConfiguration t (updateTTL_step t p).
Proof. by repeat split. Qed.

Lemma updateTTL_step_subscriptionSet t p :
  subscriptionSet (updateTTL_step t p) = subscriptionSet t.
Proof. reflexivity. Qed.

Lemma updateTTL_step_cache t p :
  cacheOf (updateTTL_step t p) = setTTL (cacheOf t) (cacheKeyOf t p) (maxAge t).
Proof. reflexivity. Qed.

(** What a pass over the tuples [l] does to a transport: the
    configuration and the subscription set stay, and the cache changes
    at the fingerprints of [l] only, where an existing entry gets the
    max-age as its TTL. *)
Lemma fold_updateTTL_step (l : list Params) (t : WebSocketTransport) :
  let t' := fold_left updateTTL_step l t in
  sameConfiguration t t' /\
  subscriptionSet t' = subscriptionSet t /\
  forall k, cacheOf t' !! k =
            if decide (k ∈ map (cacheKeyOf t) l)
            then withTTL (maxAge t) <$> cacheOf t !! k
            else cacheOf t !! k.
Proof.
  revert t. induction l as [|p l IH]; intros t; cbv zeta; cbn [fold_left List.map].
  - split; [apply sameConfiguration_refl|]. split; [done|].
    intros k. case_decide as H; [by apply elem_of_nil in H | done].
  - destruct (IH (updateTTL_step t p)) as (Hc & Hs & Hk).
    pose proof (updateTTL_step_config t p) as Hc1.
    split; [by eapply sameConfiguration_trans|]. split; [by rewrite Hs|].
    intros k. rewrite Hk, updateTTL_step_cache, lookup_setTTL.
    rewrite <- (maxAge_config _ _ Hc1).
    assert (map (cacheKeyOf (updateTTL_step t p)) l = map (cacheKeyOf t) l) as ->.
    { apply map_ext. intros q. symmetry. by apply cacheKeyOf_config. }
    destruct (decide (k = cacheKeyOf t p)) as [->|Hne].
    + rewrite (decide_True (P := _ ∈ _ :: _)) by (apply elem_of_cons; by left).
      case_decide; [apply withTTL_idem | done].
    + destruct (decide (k ∈ map (cacheKeyOf t) l)) as [Hin|Hnin].
      * by rewrite decide_True by (apply elem_of_cons; by right).
      * rewrite decide_False; [done|].
        intros Hin. apply elem_of_cons in Hin as [?|?]; done.
Qed.

Lemma updateTTL_config t : sameConfiguration t (updateTTL t).
Proof. apply (fold_updateTTL_step (subscriptionSet t) t). Qed.

Lemma updateTTL_subscriptionSet t : subscriptionSet (updateTTL t) = subscriptionSet t.
Proof. apply (fold_updateTTL_step (subscriptionSet t) t). Qed.

Lemma updateTTL_lookup t k :
  cacheOf (updateTTL t) !! k =
  if decide (k ∈ refreshKeys calculateCacheKey t)
  then withTTL (maxAge t) <$> cacheOf t !! k
  else cacheOf t !! k.
Proof. apply (fold_updateTTL_step (subscriptionSet t) t). Qed.

Lemma updateTTL_get t k : get (cacheOf (updateTTL t)) k = get (cacheOf t) k.
Proof.
  unfold get. rewrite updateTTL_lookup. case_decide; [|done].
  by destruct (cacheOf t !! k).
Qed.

Lemma updateTTL_dom t : dom (cacheOf (updateTTL t)) = dom (cacheOf t).
Proof.
  apply set_eq. intros k. rewrite !elem_of_dom, updateTTL_lookup.
  case_decide; [|done]. by rewrite fmap_is_Some.
Qed.

End Refresh.

End TpIcapFacts.

(** ** The claims about the TP/ICAP transport *)

Module TpIcapSpec.
Import Js JsFacts ResponseCacheModel TpIcap TpIcapFacts.

(** *** Examples *)

Example slice_heartbeat_stream : slice "HBHHH:GBL.BIL.QTE.RTM!TP" 22 24 = "TP".
Proof. reflexivity. Qed.

Example slice_price_stream : slice eurUsdRec 31 34 = "TP".
Proof. reflexivity. Qed.

Example slice_price_fields :
  (slice eurUsdRec 5 8, slice eurUsdRec 8 11, slice eurUsdRec 15 18) = ("EUR", "USD", "GBL").
Proof. reflexivity. Qed.

Example price_tick_params :
  forall now est t,
    params <$> (fst (message sampleCacheKey binary64Decimal tpOptions now est t
                       (priceFrame (Some 2%float) None None)) ≫= head)
    = Some eurUsd.
Proof. reflexivity. Qed.

(** *** The guards *)

Lemma message_noTypeOrAuth ckf D o now est t m :
  noTypeOrAuth m = true -> message ckf D o now est t m = (Some [], t).
Proof.
  unfold noTypeOrAuth, message. destruct (msg m) as [ty|]; [|done].
  by intros ->.
Qed.

Lemma message_missingFields ckf D o now est t m :
  missingFields m = true -> message ckf D o now est t m = (Some [], t).
Proof.
  unfold missingFields, message. intros H.
  destruct (msg m) as [ty|]; [|done].
  destruct (str_eq ty "auth"); [done|].
  destruct (fvs m) as [f|], (rec m) as [r|]; try done.
  simpl in H.
  destruct (negb (truthy_string r) || negb (truthy_opt (fun s => num_eq s 1%float) (sta m)));
    [done | discriminate].
Qed.

(** Past the guards, the handler works on [fvs] and [rec]. *)
Lemma message_past_guards ckf D o now est t m :
  noTypeOrAuth m = false -> missingFields m = false ->
  exists f r,
    fvs m = Some f /\ rec m = Some r /\
    message ckf D o now est t m =
      if isHeartbeat o r then (Some [], updateTTL ckf t)
      else if negb (str_eq (slice r 31 34) (streamName o)) then (Some [], t)
      else if negb (isNum (MID_PRICE f)) && negb (isNum (BID f) && isNum (ASK f))
      then (Some [], t)
      else match computeResult D f with
           | Some res => (Some [makeTick o r res now est], t)
           | None => (None, t)
           end.
Proof.
  unfold noTypeOrAuth, missingFields, message. intros H1 H2.
  destruct (msg m) as [ty|]; [|done]. rewrite H1.
  destruct (fvs m) as [f|]; [|done].
  destruct (rec m) as [r|]; [|done].
  exists f, r. do 2 (split; [done|]).
  simpl in H2. by rewrite H2.
Qed.

(** C6: a frame without a message type, of type [auth], without [fvs],
    without [rec] (or with an empty one), or whose [sta] is not the number
    1, makes the message handler return normally with an empty array, and
    leaves the transport (so the cache and every TTL) as it was. *)
Theorem guards_drop_frame ckf D o now est t m :
  msg m = None \/ msg m = Some "auth" \/ fvs m = None \/
  rec m = None \/ rec m = Some "" \/
  truthy_opt (fun s => num_eq s 1%float) (sta m) = false ->
  message ckf D o now est t m = (Some [], t).
Proof.
  intros H.
  destruct (noTypeOrAuth m) eqn:E1; [by apply message_noTypeOrAuth|].
  apply message_missingFields. unfold noTypeOrAuth, missingFields in *.
  destruct H as [H|[H|[H|[H|[H|H]]]]]; rewrite H in *; try done.
  - by destruct (bool_decide (is_Some (fvs m))).
  - by destruct (bool_decide (is_Some (fvs m))).
  - by rewrite orb_true_r.
Qed.

Lemma guards_drop_frame_witness :
  message sampleCacheKey binary64Decimal tpOptions 7 None (sampleTransport ∅) authAck
  = (Some [], sampleTransport ∅).
Proof. apply guards_drop_frame. right. left. reflexivity. Defined.

(** C1: on a frame past the guards whose identifier contains the heartbeat
    marker and whose stream code [rec.slice(22, 24)] is the configured
    stream name, the handler returns no tick; the entry of every tuple of
    the subscription set gets the configured max-age as its TTL and keeps
    its value; every cached value stays as it was; entries under other
    keys, the configuration and the subscription set are untouched. *)
Theorem heartbeat_extends_ttl ckf D o now est t m :
  noTypeOrAuth m = false -> missingFields m = false -> heartbeatFor o m = true ->
  let out := message ckf D o now est t m in
  fst out = Some [] /\
  (forall p e, p ∈ subscriptionSet t ->
     cacheOf t !! cacheKeyOf ckf t p = Some e ->
     cacheOf (snd out) !! cacheKeyOf ckf t p = Some (withTTL (maxAge t) e)) /\
  (forall k, get (cacheOf (snd out)) k = get (cacheOf t) k) /\
  (forall k, k ∉ refreshKeys ckf t -> cacheOf (snd out) !! k = cacheOf t !! k) /\
  sameConfiguration t (snd out) /\
  subscriptionSet (snd out) = subscriptionSet t.
Proof.
  intros H1 H2 Hhb.
  destruct (message_past_guards ckf D o now est t m H1 H2) as (f & r & Hf & Hr & ->).
  unfold heartbeatFor in Hhb. rewrite Hr in Hhb. simpl in Hhb. rewrite Hhb.
  cbv zeta. cbn [fst snd]. split; [done|]. split; [|split; [|split; [|split]]].
  - intros p e Hp He. rewrite updateTTL_lookup, He.
    rewrite decide_True; [done|].
    unfold refreshKeys. apply list_elem_of_In, in_map, list_elem_of_In, Hp.
  - apply updateTTL_get.
  - intros k Hk. rewrite updateTTL_lookup. by rewrite decide_False.
  - apply updateTTL_config.
  - apply updateTTL_subscriptionSet.
Qed.

Lemma heartbeat_extends_ttl_witness :
  let t := sampleTransport
             (set ∅ (cacheKeyOf sampleCacheKey (sampleTransport ∅) eurUsd) sampleResponse 100) in
  let out := message sampleCacheKey binary64Decimal tpOptions 7 (Some 5) t heartbeatFrame in
  fst out = Some [] /\
  (forall p e, p ∈ subscriptionSet t ->
     cacheOf t !! cacheKeyOf sampleCacheKey t p = Some e ->
     cacheOf (snd out) !! cacheKeyOf sampleCacheKey t p = Some (withTTL (maxAge t) e)) /\
  (forall k, get (cacheOf (snd out)) k = get (cacheOf t) k) /\
  (forall k, k ∉ refreshKeys sampleCacheKey t -> cacheOf (snd out) !! k = cacheOf t !! k) /\
  sameConfiguration t (snd out) /\
  subscriptionSet (snd out) = subscriptionSet t.
Proof.
  intros t.
  apply (heartbeat_extends_ttl sampleCacheKey binary64Decimal tpOptions 7 (Some 5) t
           heartbeatFrame); reflexivity.
Defined.

(** The refreshed entry of the example: TTL 100 becomes the max-age
    90000, the value stays. *)
Example heartbeat_refreshes_sample_entry :
  let key := cacheKeyOf sampleCacheKey (sampleTransport ∅) eurUsd in
  let t := sampleTransport (set ∅ key sampleResponse 100) in
  cacheOf (snd (message sampleCacheKey binary64Decimal tpOptions 7 (Some 5) t heartbeatFrame))
    !! key
  = Some {| entry_value := sampleResponse; entry_ttl := 90000 |}.
Proof. vm_compute. reflexivity. Qed.

(** C5: a frame that the heartbeat branch does not accept and whose stream
    code [rec.slice(31, 34)] is not the configured stream name makes the
    handler return an empty array and leaves the transport as it was: no
    tick, no cache write, no TTL update. *)
Theorem stream_mismatch_ignored ckf D o now est t m :
  heartbeatFor o m = false ->
  streamCode m <> Some (streamName o) ->
  message ckf D o now est t m = (Some [], t).
Proof.
  intros Hhb Hs.
  destruct (noTypeOrAuth m) eqn:E1; [by apply message_noTypeOrAuth|].
  destruct (missingFields m) eqn:E2; [by apply message_missingFields|].
  destruct (message_past_guards ckf D o now est t m E1 E2) as (f & r & Hf & Hr & ->).
  unfold heartbeatFor, streamCode in *. rewrite Hr in *. simpl in *. rewrite Hhb.
  destruct (str_eq (slice r 31 34) (streamName o)) eqn:E; [|done].
  apply str_eq_true in E. congruence.
Qed.

Lemma stream_mismatch_ignored_witness :
  message sampleCacheKey binary64Decimal tpOptions 7 (Some 5) (sampleTransport ∅) icapFrame
  = (Some [], sampleTransport ∅).
Proof. apply stream_mismatch_ignored; [reflexivity | discriminate]. Defined.

(** *** The refresh pass *)

Lemma updateTTL_step_missing ckf t p :
  cacheOf t !! cacheKeyOf ckf t p = None -> updateTTL_step ckf t p = t.
Proof.
  unfold updateTTL_step, cache_setTTL, cacheOf. intros H.
  rewrite (setTTL_missing _ _ _ H).
  destruct t as [n [a e st c] ss]. reflexivity.
Qed.

(** C7: a fingerprint without a cache entry has none after the refresh
    pass, so no value can be read under it, and the step of the pass that
    computes this fingerprint leaves the transport exactly as it was. *)
Theorem refresh_creates_no_entry ckf t k :
  cacheOf t !! k = None ->
  cacheOf (updateTTL ckf t) !! k = None /\
  get (cacheOf (updateTTL ckf t)) k = None /\
  (forall p, cacheKeyOf ckf t p = k -> updateTTL_step ckf t p = t).
Proof.
  intros H. split; [|split].
  - rewrite updateTTL_lookup, H. by case_decide.
  - by rewrite updateTTL_get; unfold get; rewrite H.
  - intros p <-. by apply updateTTL_step_missing.
Qed.

Lemma refresh_creates_no_entry_witness :
  let t := sampleTransport ∅ in
  let k := cacheKeyOf sampleCacheKey t eurUsd in
  cacheOf (updateTTL sampleCacheKey t) !! k = None /\
  get (cacheOf (updateTTL sampleCacheKey t)) k = None /\
  (forall p, cacheKeyOf sampleCacheKey t p = k -> updateTTL_step sampleCacheKey t p = t).
Proof.
  intros t k. apply (refresh_creates_no_entry sampleCacheKey t k). reflexivity.
Defined.

(** The refresh pass never changes which fingerprints have an entry. *)
Lemma refresh_keeps_domain ckf t : dom (cacheOf (updateTTL ckf t)) = dom (cacheOf t).
Proof. apply updateTTL_dom. Qed.

(** The call site in [updateTTL] gives [calculateCacheKey] the name of the
    transport, the tuple, and the adapter name, endpoint name and settings
    of the response cache, and nothing else: transports with the same
    configuration pass the same argument for the same tuple, before and
    after a refresh pass. *)
Lemma cacheKeyOf_same_configuration ckf t1 t2 (p : Params) :
  sameConfiguration t1 t2 ->
  cacheKeyOf ckf t1 p = cacheKeyOf ckf t2 p /\
  cacheKeyOf ckf (updateTTL ckf t1) p = cacheKeyOf ckf t2 p.
Proof.
  intros Hc. split.
  - by apply cacheKeyOf_config.
  - apply cacheKeyOf_config. eapply sameConfiguration_trans; [|exact Hc].
    pose proof (updateTTL_config ckf t1) as (? & ? & ? & ?). by repeat split.
Qed.

(** *** The [open] handler *)

Lemma onOpenMessage_ack (st : OpenState) (ev : Z * Frame) :
  onOpenMessage st ev =
  if frameIsAuthAck ev
  then {| established := Some (fst ev); resolved := true; sent := sent st |}
  else st.
Proof. by destruct ev as [now [|m]]. Qed.

Lemma lastAuthAck_cons (ev : Z * Frame) (evs : list (Z * Frame)) :
  lastAuthAck (ev :: evs) =
  match lastAuthAck evs with
  | Some t => Some t
  | None => if frameIsAuthAck ev then Some (fst ev) else None
  end.
Proof.
  unfold lastAuthAck. cbn [List.filter]. destruct (frameIsAuthAck ev).
  - rewrite last_cons. by destruct (list.last (List.filter frameIsAuthAck evs)).
  - by destruct (list.last (List.filter frameIsAuthAck evs)).
Qed.

Lemma lastAuthAck_none (evs : list (Z * Frame)) :
  existsb frameIsAuthAck evs = false -> lastAuthAck evs = None.
Proof.
  induction evs as [|ev evs IH]; [done|].
  cbn [existsb]. intros [H1 H2]%orb_false_iff.
  by rewrite lastAuthAck_cons, IH, H1.
Qed.

Lemma fold_onOpenMessage (evs : list (Z * Frame)) (st : OpenState) :
  let st' := fold_left onOpenMessage evs st in
  resolved st' = resolved st || existsb frameIsAuthAck evs /\
  established st' = from_option Some (established st) (lastAuthAck evs) /\
  sent st' = sent st.
Proof.
  revert st. induction evs as [|ev evs IH]; intros st; cbv zeta.
  - cbn. by rewrite orb_false_r.
  - cbn [fold_left existsb]. destruct (IH (onOpenMessage st ev)) as (Hr & He & Hs).
    rewrite Hr, He, Hs, lastAuthAck_cons, onOpenMessage_ack.
    destruct (frameIsAuthAck ev), (lastAuthAck evs); cbn;
      rewrite ?orb_true_r; done.
Qed.

(** C4: after any sequence of frames, the promise returned by [open] has
    resolved exactly when one of the frames parsed to a message with
    [msg === 'auth'] and [sta === 1]; the stream-established timestamp is
    the arrival time of the last such frame, and is what it was before
    [open] when there is none.  So as long as no such frame has arrived,
    [open] has not resolved and has recorded nothing. *)
Theorem open_resolves_on_auth_ack (settings : AdapterSettings) (est0 : option Z)
    (evs : list (Z * Frame)) :
  resolved (openAfter settings est0 evs) = existsb frameIsAuthAck evs /\
  established (openAfter settings est0 evs) = from_option Some est0 (lastAuthAck evs) /\
  (existsb frameIsAuthAck evs = false ->
     resolved (openAfter settings est0 evs) = false /\
     established (openAfter settings est0 evs) = est0).
Proof.
  unfold openAfter.
  destruct (fold_onOpenMessage evs (open_ settings est0)) as (Hr & He & _).
  cbn [open_ resolved established] in Hr, He. rewrite orb_false_l in Hr.
  split; [done|]. split; [done|]. intros Hno. split; [congruence|].
  by rewrite He, lastAuthAck_none.
Qed.

(** A connection on which a heartbeat, garbage and an [auth] frame with
    status 0 arrive stays pending; the acknowledgement resolves it. *)
Example open_pending_then_ready :
  let before := [(10, Parsed heartbeatFrame); (11, Unparsable);
                 (12, Parsed {| msg := Some "auth"; pro := None; rec := None;
                                sta := Some 0%float; img := None; fvs := None |})] in
  (resolved (openAfter sampleSettings None before),
   established (openAfter sampleSettings None before),
   resolved (openAfter sampleSettings None (before ++ [(13, Parsed authAck)])),
   established (openAfter sampleSettings None (before ++ [(13, Parsed authAck)])))
  = (false, None, true, Some 13).
Proof. reflexivity. Qed.

(** X18: [open] sends one authentication directive, with the configured
    credentials and the mode [broadcast]; no frame that arrives makes it
    send anything more. *)
Lemma open_sends_auth settings est0 evs :
  sent (openAfter settings est0 evs)
  = [ {| auth_msg := "auth"; auth_user := WS_API_USERNAME settings;
         auth_pass := WS_API_PASSWORD settings; auth_mode := "broadcast" |} ].
Proof.
  unfold openAfter.
  by destruct (fold_onOpenMessage evs (open_ settings est0)) as (_ & _ & ->).
Qed.

(** *** The result of a price frame *)

(** What the handler does with a frame that is past the guards, is not
    taken as a heartbeat and carries the configured stream code. *)
Lemma message_price ckf D o now est t m f r :
  noTypeOrAuth m = false -> missingFields m = false ->
  fvs m = Some f -> rec m = Some r ->
  isHeartbeat o r = false -> slice r 31 34 = streamName o ->
  message ckf D o now est t m =
    if negb (isNum (MID_PRICE f)) && negb (isNum (BID f) && isNum (ASK f))
    then (Some [], t)
    else match computeResult D f with
         | Some res => (Some [makeTick o r res now est], t)
         | None => (None, t)
         end.
Proof.
  intros H1 H2 Hf Hr Hhb Hs.
  destruct (message_past_guards ckf D o now est t m H1 H2) as (f' & r' & Hf' & Hr' & ->).
  simplify_eq. rewrite Hhb.
  apply str_eq_true in Hs. by rewrite Hs.
Qed.

(** X1: a midpoint that is a truthy number (not [0], [-0] or [NaN]) is the
    result of the tick as it stands, whatever [BID] and [ASK] hold. *)
Theorem truthy_midpoint_verbatim ckf D o now est t m f r mid :
  noTypeOrAuth m = false -> missingFields m = false ->
  fvs m = Some f -> rec m = Some r ->
  isHeartbeat o r = false -> slice r 31 34 = streamName o ->
  MID_PRICE f = Some mid -> truthy_number mid = true ->
  message ckf D o now est t m = (Some [makeTick o r mid now est], t).
Proof.
  intros H1 H2 Hf Hr Hhb Hs Hm Ht.
  rewrite (message_price ckf D o now est t m f r) by done.
  unfold computeResult. by rewrite Hm, Ht.
Qed.

Lemma truthy_midpoint_verbatim_witness :
  message sampleCacheKey binary64Decimal tpOptions 7 (Some 5) (sampleTransport ∅)
    (priceFrame (Some 2%float) (Some 1%float) (Some 9%float))
  = (Some [makeTick tpOptions eurUsdRec 2%float 7 (Some 5)], sampleTransport ∅).
Proof.
  by apply (truthy_midpoint_verbatim sampleCacheKey binary64Decimal tpOptions 7 (Some 5)
              (sampleTransport ∅) (priceFrame (Some 2%float) (Some 1%float) (Some 9%float))
              {| CCY1 := Some "EUR"; CCY2 := Some "USD";
                 ACTIV_DATE := Some "2023-03-06"; TIMACT := Some "15:00:00";
                 BID := Some 1%float; ASK := Some 9%float; MID_PRICE := Some 2%float |}
              eurUsdRec 2%float).
Defined.

(** X2: without a midpoint, and with both [BID] and [ASK] numbers, the result
    is what the decimal library computes for
    [new Decimal(ASK).add(BID).div(2).toNumber()]; the handler throws when
    the library does. *)
Theorem bid_ask_midpoint ckf D o now est t m f r bid ask :
  noTypeOrAuth m = false -> missingFields m = false ->
  fvs m = Some f -> rec m = Some r ->
  isHeartbeat o r = false -> slice r 31 34 = streamName o ->
  MID_PRICE f = None -> BID f = Some bid -> ASK f = Some ask ->
  message ckf D o now est t m =
    match decimalMidpoint D (Some ask) (Some bid) with
    | Some res => (Some [makeTick o r res now est], t)
    | None => (None, t)
    end.
Proof.
  intros H1 H2 Hf Hr Hhb Hs Hm Hb Ha.
  rewrite (message_price ckf D o now est t m f r) by done.
  unfold computeResult. by rewrite Hm, Hb, Ha.
Qed.

Lemma bid_ask_midpoint_witness :
  message sampleCacheKey binary64Decimal tpOptions 7 (Some 5) (sampleTransport ∅)
    (priceFrame None (Some 1%float) (Some 3%float))
  = match decimalMidpoint binary64Decimal (Some 3%float) (Some 1%float) with
    | Some res => (Some [makeTick tpOptions eurUsdRec res 7 (Some 5)], sampleTransport ∅)
    | None => (None, sampleTransport ∅)
    end.
Proof.
  by apply (bid_ask_midpoint sampleCacheKey binary64Decimal tpOptions 7 (Some 5)
              (sampleTransport ∅) (priceFrame None (Some 1%float) (Some 3%float))
              {| CCY1 := Some "EUR"; CCY2 := Some "USD";
                 ACTIV_DATE := Some "2023-03-06"; TIMACT := Some "15:00:00";
                 BID := Some 1%float; ASK := Some 3%float; MID_PRICE := None |}
              eurUsdRec 1%float 3%float).
Defined.

(** A frame with neither a midpoint nor both of [BID] and [ASK] gives no
    tick. *)
Lemma no_price_ignored ckf D o now est t m f r :
  noTypeOrAuth m = false -> missingFields m = false ->
  fvs m = Some f -> rec m = Some r ->
  isHeartbeat o r = false -> slice r 31 34 = streamName o ->
  MID_PRICE f = None -> BID f = None \/ ASK f = None ->
  message ckf D o now est t m = (Some [], t).
Proof.
  intros H1 H2 Hf Hr Hhb Hs Hm Hba.
  rewrite (message_price ckf D o now est t m f r) by done.
  rewrite Hm. destruct Hba as [-> | ->]; [done|].
  by destruct (BID f).
Qed.

(** C2, where the code departs from it: a midpoint of [0] is a number, so
    the frame passes the price guard, but [MID_PRICE || ...] takes it as
    absent.  The frame with [MID_PRICE = 0], [BID = 1], [ASK = 3] gives the
    very tick of the frame without a midpoint, whose result is the decimal
    midpoint of [ASK] and [BID] (2 on the binary64 stand-in); with no
    [BID] and [ASK] the handler calls [new Decimal(undefined)], and throws
    where that constructor does. *)
Theorem zero_midpoint_taken_as_absent ckf D now est t :
  let zero := priceFrame (Some 0%float) (Some 1%float) (Some 3%float) in
  let absent := priceFrame None (Some 1%float) (Some 3%float) in
  message ckf D tpOptions now est t zero = message ckf D tpOptions now est t absent /\
  fst (message ckf D tpOptions now est t zero)
    = (res ← decimalMidpoint D (Some 3%float) (Some 1%float);
       Some [makeTick tpOptions eurUsdRec res now est]) /\
  fst (message ckf binary64Decimal tpOptions now est t zero)
    = Some [makeTick tpOptions eurUsdRec 2%float now est] /\
  fst (message ckf D tpOptions now est t (priceFrame (Some 0%float) None None))
    = (res ← decimalMidpoint D None None;
       Some [makeTick tpOptions eurUsdRec res now est]) /\
  fst (message ckf binary64Decimal tpOptions now est t (priceFrame (Some 0%float) None None))
    = None.
Proof.
  cbv zeta. split; [reflexivity|]. split; [|split; [reflexivity|split; [|reflexivity]]].
  - change (fst (message ckf D tpOptions now est t
                   (priceFrame (Some 0%float) (Some 1%float) (Some 3%float))))
      with (fst (match decimalMidpoint D (Some 3%float) (Some 1%float) with
                 | Some res => (Some [makeTick tpOptions eurUsdRec res now est], t)
                 | None => (None, t)
                 end)).
    by destruct (decimalMidpoint D (Some 3%float) (Some 1%float)).
  - change (fst (message ckf D tpOptions now est t (priceFrame (Some 0%float) None None)))
      with (fst (match decimalMidpoint D None None with
                 | Some res => (Some [makeTick tpOptions eurUsdRec res now est], t)
                 | None => (None, t)
                 end)).
    by destruct (decimalMidpoint D None None).
Qed.

End TpIcapSpec.

(** ** The claims about the Amberdata balance endpoint *)

Module BalanceSpec.
Import Js JsFacts Balance.

Section Endpoint.
Context (I : Imports).

(** The only value the callback throws by itself is the testnet warning. *)
Lemma getBlockchainHeader_thrown chain coin e :
  getBlockchainHeader I chain coin = inl e ->
  e = ThrownString WARNING_NO_OPERATION_TESTNET.
Proof.
  unfold getBlockchainHeader.
  destruct (str_eq chain "testnet"); [|done].
  destruct (truthy_opt _ _); [done|]. by intros [= <-].
Qed.

Lemma getBalance_thrown hdrs addr s :
  fst (getBalance I hdrs addr) = Rejected (ThrownString s) ->
  s = WARNING_NO_OPERATION_TESTNET.
Proof.
  unfold getBalance.
  destruct (negb (truthy_opt truthy_string (address addr))); [done|].
  destruct (negb (isCoinType I _)); [done|].
  destruct (negb (isChainType I _)); [done|].
  destruct (getBlockchainHeader I _ _) as [e|h] eqn:E.
  - apply getBlockchainHeader_thrown in E as ->. by intros [= <-].
  - destruct (request I _) as [d|]; [|done]. by destruct (payload_value d).
Qed.

Lemma coin_defaultChain (addr : Address) : coin (defaultChain addr) = coin addr.
Proof. unfold defaultChain. by destruct (negb _). Qed.

Lemma address_defaultChain (addr : Address) : address (defaultChain addr) = address addr.
Proof. unfold defaultChain. by destruct (negb _). Qed.

Lemma address_defaultCoin (addr : Address) : address (defaultCoin addr) = address addr.
Proof. unfold defaultCoin. by destruct (negb _). Qed.

Lemma getBalance_testnetOffEthereum hdrs addr :
  testnetOffEthereum I addr = true ->
  getBalance I hdrs addr = (Rejected (ThrownString WARNING_NO_OPERATION_TESTNET), hdrs).
Proof.
  unfold testnetOffEthereum, effectiveCoin, effectiveChain.
  rewrite !andb_true_iff. intros ((((Ha & Hc) & Hch) & Ht) & Hn).
  unfold getBalance. rewrite Ha, Hc, Hch. cbn [negb].
  rewrite coin_defaultChain. unfold getBlockchainHeader. rewrite Ht.
  apply negb_true_iff in Hn. by rewrite Hn.
Qed.

(** Every element of the mapped array is the outcome of the callback on
    the address at its position, for some state of the headers. *)
Lemma mapAddresses_elem hdrs addresses addr :
  addr ∈ addresses ->
  exists hdrs', fst (getBalance I hdrs' addr) ∈ mapAddresses I hdrs addresses.
Proof.
  revert hdrs. induction addresses as [|a rest IH]; intros hdrs Hin.
  - by apply elem_of_nil in Hin.
  - cbn [mapAddresses]. destruct (getBalance I hdrs a) as [out hdrs1] eqn:E.
    apply elem_of_cons in Hin as [->|Hin].
    + exists hdrs. rewrite E. apply elem_of_cons. by left.
    + destruct (IH hdrs1 Hin) as [hdrs' H]. exists hdrs'.
      apply elem_of_cons. by right.
Qed.

Lemma mapAddresses_inv hdrs addresses out :
  out ∈ mapAddresses I hdrs addresses ->
  exists hdrs' addr, addr ∈ addresses /\ out = fst (getBalance I hdrs' addr).
Proof.
  revert hdrs. induction addresses as [|a rest IH]; intros hdrs Hin.
  - by apply elem_of_nil in Hin.
  - cbn [mapAddresses] in Hin. destruct (getBalance I hdrs a) as [o hdrs1] eqn:E.
    apply elem_of_cons in Hin as [->|Hin].
    + exists hdrs, a. rewrite E. split; [apply elem_of_cons; by left | done].
    + destruct (IH hdrs1 Hin) as (hdrs' & addr & H1 & H2).
      exists hdrs', addr. split; [apply elem_of_cons; by right | done].
Qed.

Lemma mapAddresses_length hdrs addresses :
  length (mapAddresses I hdrs addresses) = length addresses.
Proof.
  revert hdrs. induction addresses as [|a rest IH]; intros hdrs; [done|].
  cbn [mapAddresses]. destruct (getBalance I hdrs a) as [o hdrs1].
  cbn [length]. by rewrite IH.
Qed.

(** [Promise.all] over an array that holds a thrown string rejects with
    a thrown string of the array. *)
Lemma promiseAll_thrown {A} (l : list (Settled A)) s :
  Rejected (ThrownString s) ∈ l ->
  exists s', Rejected (ThrownString s') ∈ l /\ promiseAll l = Rejected (ThrownString s').
Proof.
  intros Hin. unfold promiseAll.
  destruct (List.find isThrownString l) as [x|] eqn:E.
  - apply find_some in E as [Hx Ht]. destruct x as [a|[s'| |]]; try done.
    exists s'. split; [by apply list_elem_of_In | done].
  - apply list_elem_of_In in Hin. by pose proof (find_none _ _ E _ Hin).
Qed.

(** [Promise.all] over an array without rejection fulfils with the
    values, in order. *)
Lemma promiseAll_fulfilled {A} (l : list (Settled A)) :
  Forall (fun x => isRejected x = false) l ->
  promiseAll l = Fulfilled (fulfilledValues l).
Proof.
  intros Hall. unfold promiseAll.
  destruct (List.find isThrownString l) as [x|] eqn:E1.
  - apply find_some in E1 as [Hx Ht].
    rewrite List.Forall_forall in Hall. specialize (Hall x Hx).
    by destruct x as [a|[s'| |]].
  - destruct (List.find isRejected l) as [x|] eqn:E2; [|done].
    apply find_some in E2 as [Hx Ht].
    rewrite List.Forall_forall in Hall. specialize (Hall x Hx). congruence.
Qed.

Lemma promiseAll_map_Fulfilled {A} (rs : list A) :
  promiseAll (map Fulfilled rs) = Fulfilled rs.
Proof.
  rewrite promiseAll_fulfilled.
  - f_equal. unfold fulfilledValues. induction rs as [|r rs IH]; [done|].
    cbn. by rewrite IH.
  - apply List.Forall_forall. intros x [r [<- _]]%in_map_iff. done.
Qed.

(** An item that one of the three checks stops is answered with its warning
    and a zero balance, and leaves the headers alone. *)
Lemma getBalance_warned hdrs addr w :
  unsupportedReason I addr = Some w ->
  getBalance I hdrs addr = (Fulfilled (warned addr w), hdrs).
Proof.
  unfold unsupportedReason, effectiveCoin, effectiveChain, getBalance.
  destruct (negb (truthy_opt truthy_string (address addr))); [by intros [= <-]|].
  destruct (negb (isCoinType I _)); [by intros [= <-]|].
  destruct (negb (isChainType I _)); [by intros [= <-]|]. done.
Qed.

(** An item that is not a testnet lookup off ethereum, with a provider
    that answers, is fulfilled. *)
Lemma getBalance_fulfilled hdrs addr :
  testnetOffEthereum I addr = false ->
  (forall cfg, is_Some (request I cfg ≫= payload_value)) ->
  exists r, fst (getBalance I hdrs addr) = Fulfilled r /\
            (forall w, unsupportedReason I addr = Some w -> r = warned addr w).
Proof.
  intros Ht Hreq.
  destruct (unsupportedReason I addr) as [w|] eqn:Hw.
  { exists (warned addr w). rewrite (getBalance_warned hdrs addr w Hw).
    split; [done|]. by intros w' [= <-]. }
  revert Ht Hw.
  unfold unsupportedReason, testnetOffEthereum, effectiveCoin, effectiveChain, getBalance.
  destruct (truthy_opt truthy_string (address addr)); [|done]. cbn [negb andb].
  destruct (isCoinType I _); [|done]. cbn [negb andb].
  destruct (isChainType I _); [|done]. cbn [negb andb].
  rewrite coin_defaultChain. unfold getBlockchainHeader. intros Ht _.
  destruct (str_eq _ "testnet").
  - cbn [andb] in Ht. apply negb_false_iff in Ht. rewrite Ht.
    match goal with |- context [request I ?c] => destruct (Hreq c) as [v Hv] end.
    destruct (request I _) as [d|]; [|done]. cbn in Hv. rewrite Hv.
    eexists. split; [done|]. done.
  - match goal with |- context [request I ?c] => destruct (Hreq c) as [v Hv] end.
    destruct (request I _) as [d|]; [|done]. cbn in Hv. rewrite Hv.
    eexists. split; [done|]. done.
Qed.

Lemma mapAddresses_fulfilled hdrs addresses :
  (forall addr, addr ∈ addresses -> testnetOffEthereum I addr = false) ->
  (forall cfg, is_Some (request I cfg ≫= payload_value)) ->
  exists rs,
    mapAddresses I hdrs addresses = map Fulfilled rs /\
    Forall2 (fun addr r => forall w, unsupportedReason I addr = Some w -> r = warned addr w)
      addresses rs.
Proof.
  intros Hall Hreq. revert hdrs.
  induction addresses as [|a rest IH]; intros hdrs.
  - exists []. split; [done | constructor].
  - destruct (getBalance_fulfilled hdrs a) as (r & Hr & Hw); [|done|].
    { apply Hall, elem_of_cons. by left. }
    cbn [mapAddresses]. destruct (getBalance I hdrs a) as [out hdrs1].
    cbn [fst] in Hr. subst out.
    destruct (IH (fun addr H => Hall addr (proj2 (elem_of_cons _ _ _) (or_intror H))) hdrs1)
      as (rs & Hrs & HF).
    exists (r :: rs). split; [by rewrite Hrs | by constructor].
Qed.

(** X3: in a batch without a testnet lookup off ethereum, with a provider that
    answers every request with a payload, [getBalances] fulfils with one
    result per address, in order;
    an item with a missing address, an unsupported coin or an invalid chain
    gets its warning and a zero balance there, beside its siblings. *)
Theorem warned_items_keep_batch api addresses :
  (forall addr, addr ∈ addresses -> testnetOffEthereum I addr = false) ->
  (forall cfg, is_Some (request I cfg ≫= payload_value)) ->
  exists rs,
    getBalances I api addresses = Fulfilled rs /\
    Forall2 (fun addr r => forall w, unsupportedReason I addr = Some w -> r = warned addr w)
      addresses rs.
Proof.
  intros Hall Hreq. unfold getBalances.
  destruct (mapAddresses_fulfilled (headers api) addresses Hall Hreq) as (rs & -> & HF).
  exists rs. split; [apply promiseAll_map_Fulfilled | done].
Qed.

(** C9, where the code departs from it: a batch that holds one item asking
    for [testnet] on a supported coin whose network is not [ethereum] is
    rejected as a whole with the thrown testnet warning, whatever its
    siblings are: [getBlockchainHeader] throws the warning instead of
    answering the item with it. *)
Theorem testnet_item_aborts_batch api addresses addr :
  addr ∈ addresses ->
  testnetOffEthereum I addr = true ->
  getBalances I api addresses = Rejected (ThrownString WARNING_NO_OPERATION_TESTNET).
Proof.
  intros Hin Ht. unfold getBalances.
  destruct (mapAddresses_elem (headers api) addresses addr Hin) as [hdrs' Hel].
  rewrite getBalance_testnetOffEthereum in Hel by done. cbn [fst] in Hel.
  destruct (promiseAll_thrown _ _ Hel) as (s' & Hs' & ->).
  apply mapAddresses_inv in Hs' as (hdrs2 & addr2 & _ & Heq).
  symmetry in Heq. by apply getBalance_thrown in Heq as ->.
Qed.

(** The coin an item is looked up with is the given one, or [btc] when the
    item has none, whatever its chain is. *)
Lemma effectiveCoin_or_btc (addr : Address) :
  effectiveCoin addr
  = if truthy_opt truthy_string (coin addr) then str (coin addr) else "btc".
Proof.
  unfold effectiveCoin, defaultCoin.
  destruct (truthy_opt truthy_string (coin addr)); reflexivity.
Qed.

(** The chain an item is looked up with is the given one, or [mainnet] when
    the item has none, whatever its coin is. *)
Lemma effectiveChain_or_mainnet (addr : Address) :
  effectiveChain addr
  = if truthy_opt truthy_string (chain addr) then str (chain addr) else "mainnet".
Proof.
  unfold effectiveChain, defaultChain.
  assert (chain (defaultCoin addr) = chain addr) as Hch.
  { unfold defaultCoin. by destruct (negb _). }
  rewrite Hch. destruct (truthy_opt truthy_string (chain addr)); cbn [negb].
  - by rewrite Hch.
  - reflexivity.
Qed.

(** C10: for an item with a non-empty address, the coin the callback works
    with is the given coin, or [btc] when the coin is missing or empty, and
    the chain is the given chain, or [mainnet] when the chain is missing or
    empty; each default is applied whether or not the other field is given.
    The checks, the header and the result all use this coin and chain: when
    the endpoint supports them the item is not warned; it is looked up with
    the header of (chain, coin), which for a defaulted chain is the mainnet
    of the coin's network and is never thrown; and the result carries the
    coin and the chain that were used, with the balance of the response and
    no warning.  The item is rejected only when the header is thrown, the
    request is rejected, or the response has no payload to read. *)
Theorem missing_coin_chain_default hdrs addr a :
  address addr = Some a -> truthy_string a = true ->
  let c := if truthy_opt truthy_string (coin addr) then str (coin addr) else "btc" in
  let ch := if truthy_opt truthy_string (chain addr) then str (chain addr) else "mainnet" in
  isCoinType I c = true -> isChainType I ch = true ->
  unsupportedReason I addr = None /\
  (truthy_opt truthy_string (chain addr) = false ->
   getBlockchainHeader I ch c
   = inr (template (toVendorName I c (BLOCKCHAINS I)) +:+ "-mainnet")) /\
  getBalance I hdrs addr =
    match getBlockchainHeader I ch c with
    | inl e => (Rejected e, hdrs)
    | inr h =>
      let hdrs' := <["x-amberdata-blockchain-id" := h]> hdrs in
      let reqConfig :=
        {| baseURL := getBaseURL I; url := getBalanceURI a; headers := hdrs' |} in
      (match request I reqConfig with
       | Some d =>
         match payload_value d with
         | Some v =>
           Fulfilled {| response := Some d;
                        result := {| acc_address := Some a;
                                     acc_coin := Some c;
                                     acc_chain := Some ch;
                                     balance := v |};
                        warning := None |}
         | None => Rejected TypeError
         end
       | None => Rejected RequestRejected
       end, hdrs')
    end.
Proof.
  intros Ha Hta. cbv zeta.
  rewrite <- effectiveCoin_or_btc, <- effectiveChain_or_mainnet. intros Hc Hch.
  split; [|split].
  - unfold unsupportedReason. by rewrite Ha, Hc, Hch; cbn; rewrite Hta.
  - intros Hmiss. rewrite (effectiveChain_or_mainnet addr), Hmiss.
    unfold getBlockchainHeader. by change (str_eq "mainnet" "testnet") with false.
  - unfold getBalance. rewrite Ha. cbn [truthy_opt]. rewrite Hta. cbn [negb].
    fold (effectiveCoin addr). rewrite Hc. cbn [negb].
    fold (effectiveChain addr). rewrite Hch. cbn [negb].
    rewrite coin_defaultChain. fold (effectiveCoin addr).
    destruct (getBlockchainHeader I (effectiveChain addr) (effectiveCoin addr)) as [e|h];
      [done|].
    rewrite address_defaultChain, address_defaultCoin, Ha.
    cbn [str default from_option id].
    assert (withBalance (defaultChain (defaultCoin addr))
            = fun v => {| acc_address := Some a;
                          acc_coin := Some (effectiveCoin addr);
                          acc_chain := Some (effectiveChain addr);
                          balance := v |}) as ->.
    { unfold withBalance.
      rewrite address_defaultChain, address_defaultCoin, Ha, coin_defaultChain.
      assert (coin (defaultCoin addr) = Some (effectiveCoin addr)) as ->.
      { unfold effectiveCoin, defaultCoin.
        destruct (coin addr) as [[|c0 s0]|] eqn:E; cbn; rewrite ?E; done. }
      assert (chain (defaultChain (defaultCoin addr)) = Some (effectiveChain addr)) as ->.
      { unfold effectiveChain, defaultChain.
        destruct (chain (defaultCoin addr)) as [[|c0 s0]|] eqn:E; cbn; rewrite ?E; done. }
      done. }
    destruct (request I _) as [d|]; [|done]. by destruct (payload_value d).
Qed.

End Endpoint.

Lemma testnet_item_aborts_batch_witness :
  getBalances sampleImports sampleApi sampleBatch
  = Rejected (ThrownString WARNING_NO_OPERATION_TESTNET).
Proof.
  apply (testnet_item_aborts_batch sampleImports sampleApi sampleBatch
           {| address := Some "addr2"; coin := Some "btc"; chain := Some "testnet" |}).
  - apply elem_of_cons. right. apply elem_of_cons. by left.
  - vm_compute. reflexivity.
Defined.

Lemma warned_items_keep_batch_witness :
  exists rs,
    getBalances sampleImports sampleApi
      [ {| address := None; coin := None; chain := None |};
        {| address := Some "addr1"; coin := None; chain := None |} ]
    = Fulfilled rs /\
    Forall2 (fun addr r => forall w, unsupportedReason sampleImports addr = Some w ->
                                     r = warned addr w)
      [ {| address := None; coin := None; chain := None |};
        {| address := Some "addr1"; coin := None; chain := None |} ] rs.
Proof.
  apply (warned_items_keep_batch sampleImports sampleApi).
  - intros addr [->|[->|H]%elem_of_cons]%elem_of_cons.
    + vm_compute. reflexivity.
    + vm_compute. reflexivity.
    + by apply elem_of_nil in H.
  - intros cfg. by eexists.
Defined.

Lemma missing_coin_chain_default_witness :
  let addr := {| address := Some "addr1"; coin := None; chain := Some "mainnet" |} in
  let hdrs := headers sampleApi in
  let c := if truthy_opt truthy_string (coin addr) then str (coin addr) else "btc" in
  let ch := if truthy_opt truthy_string (chain addr) then str (chain addr) else "mainnet" in
  unsupportedReason sampleImports addr = None /\
  (truthy_opt truthy_string (chain addr) = false ->
   getBlockchainHeader sampleImports ch c
   = inr (template (toVendorName sampleImports c (BLOCKCHAINS sampleImports)) +:+ "-mainnet")) /\
  getBalance sampleImports hdrs addr =
    match getBlockchainHeader sampleImports ch c with
    | inl e => (Rejected e, hdrs)
    | inr h =>
      let hdrs' := <["x-amberdata-blockchain-id" := h]> hdrs in
      let reqConfig :=
        {| baseURL := getBaseURL sampleImports; url := getBalanceURI "addr1";
           headers := hdrs' |} in
      (match request sampleImports reqConfig with
       | Some d =>
         match payload_value d with
         | Some v =>
           Fulfilled {| response := Some d;
                        result := {| acc_address := Some "addr1";
                                     acc_coin := Some c;
                                     acc_chain := Some ch;
                                     balance := v |};
                        warning := None |}
         | None => Rejected TypeError
         end
       | None => Rejected RequestRejected
       end, hdrs')
    end.
Proof.
  intros addr hdrs c ch.
  apply (missing_coin_chain_default sampleImports hdrs addr "addr1"); reflexivity.
Defined.

(** Each default alone, and both, on the sample imports: a missing coin
    beside a given chain, a missing chain beside a given coin, and both
    missing. *)
Example defaults_are_independent :
  let lookup addr :=
    match fst (getBalance sampleImports ∅ addr) with
    | Fulfilled r => Some (acc_coin (result r), acc_chain (result r), warning r)
    | Rejected _ => None
    end in
  (lookup {| address := Some "addr1"; coin := None; chain := Some "mainnet" |},
   lookup {| address := Some "addr1"; coin := Some "eth"; chain := None |},
   lookup {| address := Some "addr1"; coin := Some ""; chain := Some "" |})
  = (Some (Some "btc", Some "mainnet", None),
     Some (Some "eth", Some "mainnet", None),
     Some (Some "btc", Some "mainnet", None)).
Proof. vm_compute. reflexivity. Qed.

(** The sample batch, evaluated: the first and the third item alone are
    answered, the batch of the three is rejected. *)
Example sample_batch_outcomes :
  (isRejected (getBalances sampleImports sampleApi (take 1 sampleBatch)),
   isRejected (getBalances sampleImports sampleApi (drop 2 sampleBatch)),
   getBalances sampleImports sampleApi sampleBatch)
  = (false, false, Rejected (ThrownString WARNING_NO_OPERATION_TESTNET)).
Proof. vm_compute. reflexivity. Qed.

(** The header of the defaulted lookup on the sample imports. *)
Example default_lookup_header :
  snd (getBalance sampleImports ∅ {| address := Some "addr1"; coin := None; chain := None |})
    !! "x-amberdata-blockchain-id"
  = Some "bitcoin-mainnet".
Proof. vm_compute. reflexivity. Qed.

End BalanceSpec.


(** ** More on strings: what [slice] reads *)

Module SliceFacts.
Import Js JsFacts.

Lemma substring_nil (n m : nat) : String.substring n m "" = "".
Proof. by destruct n, m. Qed.

Lemma substring_0_cons (m : nat) (c : ascii) (s : string) :
  String.substring 0 (S m) (String c s) = String c (String.substring 0 m s).
Proof. reflexivity. Qed.

Lemma substring_S_cons (n m : nat) (c : ascii) (s : string) :
  String.substring (S n) m (String c s) = String.substring n m s.
Proof. by destruct m. Qed.

Lemma substring_0_0 (s : string) : String.substring 0 0 s = "".
Proof. by destruct s. Qed.

Lemma substring_take_drop (n m : nat) (s : string) :
  list_ascii_of_string (String.substring n m s)
  = take m (drop n (list_ascii_of_string s)).
Proof.
  revert n m. induction s as [|c s IH]; intros n m.
  - rewrite substring_nil. cbn. by rewrite drop_nil, take_nil.
  - destruct n as [|n].
    + destruct m as [|m]; [by rewrite substring_0_0|].
      rewrite substring_0_cons. cbn. f_equal. apply (IH 0%nat m).
    + rewrite substring_S_cons. cbn. apply IH.
Qed.

Lemma length_list_ascii (s : string) :
  length (list_ascii_of_string s) = String.length s.
Proof. induction s as [|c s IH]; cbn; [done | by rewrite IH]. Qed.

Lemma slice_list (s : string) (i j : nat) :
  list_ascii_of_string (slice s i j) = take (j - i)%nat (drop i (list_ascii_of_string s)).
Proof. apply substring_take_drop. Qed.

Lemma slice_length (s : string) (i j : nat) :
  String.length (slice s i j) = Nat.min (j - i) (String.length s - i).
Proof.
  rewrite <- length_list_ascii, slice_list, length_take, length_drop.
  by rewrite length_list_ascii.
Qed.

(** X5: [s.slice(i, j)] is the part of [s] from position [i] up to, and
    without, position [j], cut where the string ends: its characters are
    those of [s] after dropping [i] and keeping [j - i], so it has
    [min (j - i) (length s - i)] characters and is empty when [s] has no
    more than [i]. *)
Theorem slice_take_drop (s : string) (i j : nat) :
  list_ascii_of_string (slice s i j)
    = take (j - i)%nat (drop i (list_ascii_of_string s)) /\
  String.length (slice s i j) = Nat.min (j - i) (String.length s - i) /\
  ((String.length s <= i)%nat -> slice s i j = "").
Proof.
  split; [apply slice_list|]. split; [apply slice_length|]. intros Hle.
  pose proof (slice_length s i j) as Hlen.
  destruct (slice s i j) as [|c r]; [done|]. cbn in Hlen. lia.
Qed.

End SliceFacts.

(** ** More on the TP/ICAP transport: effects of the handlers *)

Module TpIcapEffects.
Import Js JsFacts SliceFacts ResponseCacheModel TpIcap TpIcapFacts TpIcapSpec.




Lemma message_heartbeat ckf D o now est t m :
  noTypeOrAuth m = false -> missingFields m = false -> heartbeatFor o m = true ->
  message ckf D o now est t m = (Some [], updateTTL ckf t).
Proof.
  intros H1 H2 Hhb.
  destruct (message_past_guards ckf D o now est t m H1 H2) as (f & r & Hf & Hr & ->).
  unfold heartbeatFor in Hhb. rewrite Hr in Hhb. cbn in Hhb. by rewrite Hhb.
Qed.

Lemma message_not_heartbeat ckf D o now est t m :
  heartbeatFor o m = false -> snd (message ckf D o now est t m) = t.
Proof.
  intros Hhb.
  destruct (noTypeOrAuth m) eqn:E1; [by rewrite message_noTypeOrAuth|].
  destruct (missingFields m) eqn:E2; [by rewrite message_missingFields|].
  destruct (message_past_guards ckf D o now est t m E1 E2) as (f & r & Hf & Hr & ->).
  unfold heartbeatFor in Hhb. rewrite Hr in Hhb. cbn in Hhb. rewrite Hhb.
  destruct (negb (str_eq _ _)); [done|].
  destruct (negb (isNum _) && _); [done|].
  by destruct (computeResult D f).
Qed.

Lemma message_length ckf D o now est t m l :
  fst (message ckf D o now est t m) = Some l -> (length l <= 1)%nat.
Proof.
  destruct (noTypeOrAuth m) eqn:E1.
  { rewrite message_noTypeOrAuth by done. intros [= <-]. cbn. lia. }
  destruct (missingFields m) eqn:E2.
  { rewrite message_missingFields by done. intros [= <-]. cbn. lia. }
  destruct (message_past_guards ckf D o now est t m E1 E2) as (f & r & Hf & Hr & ->).
  destruct (isHeartbeat o r); [intros [= <-]; cbn; lia|].
  destruct (negb (str_eq _ _)); [intros [= <-]; cbn; lia|].
  destruct (negb (isNum _) && _); [intros [= <-]; cbn; lia|].
  destruct (computeResult D f); [|done]. intros [= <-]. cbn. lia.
Qed.

(** X6: whatever the frame, the message handler leaves the transport as it
    was, except on a frame past the guards that the heartbeat branch
    accepts, where it is the transport after [updateTTL].  So no frame
    changes a cached value, adds or removes a cache entry, or changes the
    configuration or the subscription set; and no frame gives more than one
    tick. *)
Theorem message_effect ckf D o now est t m :
  let out := message ckf D o now est t m in
  snd out = (if negb (noTypeOrAuth m) && negb (missingFields m) && heartbeatFor o m
             then updateTTL ckf t else t) /\
  (forall k, get (cacheOf (snd out)) k = get (cacheOf t) k) /\
  dom (cacheOf (snd out)) = dom (cacheOf t) /\
  sameConfiguration t (snd out) /\
  subscriptionSet (snd out) = subscriptionSet t /\
  (forall l, fst out = Some l -> (length l <= 1)%nat).
Proof.
  cbv zeta.
  assert (snd (message ckf D o now est t m)
          = if negb (noTypeOrAuth m) && negb (missingFields m) && heartbeatFor o m
            then updateTTL ckf t else t) as Hsnd.
  { destruct (heartbeatFor o m) eqn:Hhb.
    - destruct (noTypeOrAuth m) eqn:E1; [by rewrite message_noTypeOrAuth|].
      destruct (missingFields m) eqn:E2; [by rewrite message_missingFields|].
      by rewrite message_heartbeat.
    - rewrite andb_false_r. by apply message_not_heartbeat. }
  split; [done|]. rewrite Hsnd.
  destruct (negb (noTypeOrAuth m) && negb (missingFields m) && heartbeatFor o m).
  - split; [apply updateTTL_get|]. split; [apply updateTTL_dom|].
    split; [apply updateTTL_config|]. split; [apply updateTTL_subscriptionSet|].
    apply message_length.
  - split; [done|]. split; [done|]. split; [apply sameConfiguration_refl|].
    split; [done|]. apply message_length.
Qed.

(** X7: a tick comes only from a frame past the guards, outside the
    heartbeat branch, with the configured stream code and a usable price (a
    numeric midpoint, or numeric bid and ask); it is the only element of the
    array, it is the tick built from the identifier and the computed result
    with the clock reading and the established timestamp, and the transport
    is untouched. *)
Theorem tick_requires_price ckf D o now est t m tick l :
  fst (message ckf D o now est t m) = Some (tick :: l) ->
  l = [] /\ snd (message ckf D o now est t m) = t /\
  exists f r res,
    noTypeOrAuth m = false /\ missingFields m = false /\
    fvs m = Some f /\ rec m = Some r /\
    isHeartbeat o r = false /\ slice r 31 34 = streamName o /\
    isNum (MID_PRICE f) || (isNum (BID f) && isNum (ASK f)) = true /\
    computeResult D f = Some res /\
    tick = makeTick o r res now est.
Proof.
  destruct (noTypeOrAuth m) eqn:E1; [by rewrite message_noTypeOrAuth|].
  destruct (missingFields m) eqn:E2; [by rewrite message_missingFields|].
  destruct (message_past_guards ckf D o now est t m E1 E2) as (f & r & Hf & Hr & ->).
  destruct (isHeartbeat o r) eqn:Hhb; [done|].
  destruct (str_eq (slice r 31 34) (streamName o)) eqn:Hs; [|done]. cbn [negb].
  destruct (negb (isNum (MID_PRICE f)) && negb (isNum (BID f) && isNum (ASK f))) eqn:Hp;
    [done|].
  destruct (computeResult D f) as [res|] eqn:Hres; [|done].
  cbn [fst snd]. intros [= <- <-]. do 2 (split; [done|]).
  exists f, r, res. apply str_eq_true in Hs.
  repeat (split; [done|]). split; [|done].
  destruct (isNum (MID_PRICE f)), (isNum (BID f) && isNum (ASK f)); done.
Qed.

Lemma tick_requires_price_witness :
  let out := message sampleCacheKey binary64Decimal tpOptions 7 (Some 5) (sampleTransport ∅)
               (priceFrame (Some 2%float) None None) in
  ([] : list ProviderResult) = [] /\ snd out = sampleTransport ∅ /\
  exists f r res,
    noTypeOrAuth (priceFrame (Some 2%float) None None) = false /\
    missingFields (priceFrame (Some 2%float) None None) = false /\
    fvs (priceFrame (Some 2%float) None None) = Some f /\
    rec (priceFrame (Some 2%float) None None) = Some r /\
    isHeartbeat tpOptions r = false /\ slice r 31 34 = streamName tpOptions /\
    isNum (MID_PRICE f) || (isNum (BID f) && isNum (ASK f)) = true /\
    computeResult binary64Decimal f = Some res /\
    makeTick tpOptions eurUsdRec 2%float 7 (Some 5) = makeTick tpOptions r res 7 (Some 5).
Proof.
  intros out.
  apply (tick_requires_price sampleCacheKey binary64Decimal tpOptions 7 (Some 5)
           (sampleTransport ∅) (priceFrame (Some 2%float) None None)
           (makeTick tpOptions eurUsdRec 2%float 7 (Some 5)) []).
  reflexivity.
Defined.

(** X8: the stream code is [rec.slice(31, 34)], so a frame gives a tick only
    if the stream name has [min 3 (length rec - 31)] characters; for a
    stream name of two characters (as [TP] and [IC]) the identifier has
    exactly 33 characters, the stream name being its end. *)
Theorem tick_identifier_length ckf D o now est t m tick l :
  fst (message ckf D o now est t m) = Some (tick :: l) ->
  exists r,
    rec m = Some r /\
    String.length (streamName o) = Nat.min 3 (String.length r - 31) /\
    (String.length (streamName o) = 2%nat -> String.length r = 33%nat).
Proof.
  destruct (noTypeOrAuth m) eqn:E1; [by rewrite message_noTypeOrAuth|].
  destruct (missingFields m) eqn:E2; [by rewrite message_missingFields|].
  destruct (message_past_guards ckf D o now est t m E1 E2) as (f & r & Hf & Hr & ->).
  destruct (isHeartbeat o r) eqn:Hhb; [done|].
  destruct (str_eq (slice r 31 34) (streamName o)) eqn:Hs; [|done].
  intros _. exists r. split; [done|]. apply str_eq_true in Hs.
  pose proof (slice_length r 31 34) as Hlen. rewrite Hs in Hlen.
  split; [exact Hlen | lia].
Qed.

Lemma tick_identifier_length_witness :
  exists r,
    rec (priceFrame (Some 2%float) None None) = Some r /\
    String.length (streamName tpOptions) = Nat.min 3 (String.length r - 31) /\
    (String.length (streamName tpOptions) = 2%nat -> String.length r = 33%nat).
Proof.
  apply (tick_identifier_length sampleCacheKey binary64Decimal tpOptions 7 (Some 5)
           (sampleTransport ∅) (priceFrame (Some 2%float) None None)
           (makeTick tpOptions eurUsdRec 2%float 7 (Some 5)) []).
  reflexivity.
Defined.

(** X9: the heartbeat branch compares [rec.slice(22, 24)], at most two
    characters, with the stream name: under a stream name of more than two
    characters no frame refreshes a TTL, and under one of more than three no
    frame gives a tick either. *)
Theorem stream_name_too_long ckf D o now est t m :
  (2 < String.length (streamName o))%nat ->
  snd (message ckf D o now est t m) = t /\
  ((3 < String.length (streamName o))%nat ->
   message ckf D o now est t m = (Some [], t)).
Proof.
  intros Hlen.
  assert (heartbeatFor o m = false) as Hhb.
  { unfold heartbeatFor. destruct (rec m) as [r|]; [|done]. cbn.
    unfold isHeartbeat. apply andb_false_iff. right. apply str_eq_false.
    intros Heq. pose proof (slice_length r 22 24) as H. rewrite Heq in H. lia. }
  split; [by apply message_not_heartbeat|]. intros Hlen3.
  destruct (noTypeOrAuth m) eqn:E1; [by rewrite message_noTypeOrAuth|].
  destruct (missingFields m) eqn:E2; [by rewrite message_missingFields|].
  destruct (message_past_guards ckf D o now est t m E1 E2) as (f & r & Hf & Hr & ->).
  unfold heartbeatFor in Hhb. rewrite Hr in Hhb. cbn in Hhb. rewrite Hhb.
  destruct (str_eq (slice r 31 34) (streamName o)) eqn:Hs; [|done].
  apply str_eq_true in Hs. pose proof (slice_length r 31 34) as H.
  rewrite Hs in H. lia.
Qed.

Lemma stream_name_too_long_witness :
  let o := {| streamName := "ICAP"; sourceName := "icapSource" |} in
  let m := subFrame "HBHHH:GBL.BIL.QTE.RTM!ICAP" noFields in
  snd (message sampleCacheKey binary64Decimal o 7 (Some 5) (sampleTransport ∅) m)
    = sampleTransport ∅ /\
  ((3 < String.length (streamName o))%nat ->
   message sampleCacheKey binary64Decimal o 7 (Some 5) (sampleTransport ∅) m
     = (Some [], sampleTransport ∅)).
Proof.
  intros o m.
  apply (stream_name_too_long sampleCacheKey binary64Decimal o 7 (Some 5)
           (sampleTransport ∅) m).
  cbn. lia.
Defined.

(** *** Refresh passes compose *)


(** X11: the cache after a refresh pass does not depend on the order of the
    subscription set, nor on how often a tuple occurs in it: two transports
    with the same configuration and cache whose subscription sets hold the
    same tuples have the same cache after [updateTTL]. *)
Theorem refresh_order_independent ckf t1 t2 :
  sameConfiguration t1 t2 ->
  cacheOf t1 = cacheOf t2 ->
  (forall p, p ∈ subscriptionSet t1 <-> p ∈ subscriptionSet t2) ->
  cacheOf (updateTTL ckf t1) = cacheOf (updateTTL ckf t2).
Proof.
  intros Hc Hcache Hset. apply map_eq. intros k.
  rewrite !updateTTL_lookup, <- Hcache, <- (maxAge_config _ _ Hc).
  assert (k ∈ refreshKeys ckf t1 <-> k ∈ refreshKeys ckf t2) as Hk.
  { unfold refreshKeys. rewrite !list_elem_of_In, !in_map_iff.
    split; intros (p & <- & Hp); exists p.
    - split; [symmetry; by apply cacheKeyOf_config|].
      by apply list_elem_of_In, Hset, list_elem_of_In.
    - split; [by apply cacheKeyOf_config|].
      by apply list_elem_of_In, Hset, list_elem_of_In. }
  destruct (decide (k ∈ refreshKeys ckf t1)) as [H1|H1].
  - by rewrite decide_True by by apply Hk.
  - rewrite decide_False; [done|]. intros H2. by apply H1, Hk.
Qed.

Lemma refresh_order_independent_witness :
  let usdJpy : Params :=
    <["tpSource" := "GBL"]> (<["quote" := "JPY"]> (<["base" := "USD"]> ∅)) in
  let c := set ∅ (cacheKeyOf sampleCacheKey (sampleTransport ∅) eurUsd) sampleResponse 100 in
  let t1 := {| name := "ws"; responseCache := responseCache (sampleTransport c);
               subscriptionSet := [eurUsd; usdJpy] |} in
  let t2 := {| name := "ws"; responseCache := responseCache (sampleTransport c);
               subscriptionSet := [usdJpy; eurUsd; usdJpy] |} in
  cacheOf (updateTTL sampleCacheKey t1) = cacheOf (updateTTL sampleCacheKey t2).
Proof.
  intros usdJpy c t1 t2.
  apply (refresh_order_independent sampleCacheKey t1 t2).
  - by repeat split.
  - reflexivity.
  - intros p. cbn [subscriptionSet t1 t2]. rewrite !elem_of_cons.
    pose proof (elem_of_nil p). tauto.
Defined.

(** *** The [open] handler over time *)

Lemma openAfter_app settings est0 evs more :
  openAfter settings est0 (evs ++ more)
  = fold_left onOpenMessage more (openAfter settings est0 evs).
Proof. unfold openAfter. apply fold_left_app. Qed.

(** X12: once the promise of [open] has resolved it stays resolved, whatever
    arrives afterwards, and a timestamp is recorded; the listener stays
    installed, so an acknowledgement that arrives later overwrites the
    stream-established timestamp with its own arrival time. *)
Theorem open_resolved_stable settings est0 evs more :
  resolved (openAfter settings est0 evs) = true ->
  resolved (openAfter settings est0 (evs ++ more)) = true /\
  is_Some (established (openAfter settings est0 (evs ++ more))) /\
  (forall now m, isAuthAck m = true ->
     established (openAfter settings est0 (evs ++ more ++ [(now, Parsed m)])) = Some now).
Proof.
  intros Hres.
  assert (forall st l, resolved st = true -> is_Some (established st) ->
            resolved (fold_left onOpenMessage l st) = true /\
            is_Some (established (fold_left onOpenMessage l st))) as Hstable.
  { intros st l. revert st. induction l as [|ev l IH]; intros st Hr He; [done|].
    cbn [fold_left]. apply IH; rewrite onOpenMessage_ack;
      destruct (frameIsAuthAck ev); done. }
  assert (is_Some (established (openAfter settings est0 evs))) as Hest.
  { unfold openAfter in *.
    destruct (fold_onOpenMessage evs (open_ settings est0)) as (Hr & He & _).
    rewrite Hr in Hres. cbn in Hres. rewrite He.
    destruct (lastAuthAck evs) as [x|] eqn:E; [by eexists|].
    clear -Hres E. exfalso. induction evs as [|ev evs IH]; [done|].
    rewrite lastAuthAck_cons in E. cbn in Hres.
    destruct (lastAuthAck evs); [done|].
    destruct (frameIsAuthAck ev); [done|]. by apply IH. }
  rewrite openAfter_app.
  destruct (Hstable _ more Hres Hest) as [H1 H2].
  split; [done|]. split; [done|]. intros now m Hack.
  rewrite app_assoc, openAfter_app. cbn [fold_left].
  rewrite onOpenMessage_ack. unfold frameIsAuthAck. cbn [snd fst]. by rewrite Hack.
Qed.

Lemma open_resolved_stable_witness :
  let evs := [(10, Parsed heartbeatFrame); (13, Parsed authAck)] in
  let more := [(14, Unparsable); (15, Parsed heartbeatFrame)] in
  resolved (openAfter sampleSettings None (evs ++ more)) = true /\
  is_Some (established (openAfter sampleSettings None (evs ++ more))) /\
  (forall now m, isAuthAck m = true ->
     established (openAfter sampleSettings None (evs ++ more ++ [(now, Parsed m)]))
     = Some now).
Proof.
  intros evs more. apply (open_resolved_stable sampleSettings None evs more).
  reflexivity.
Defined.

End TpIcapEffects.

(** ** More on the balance endpoint: [reduceResponse], [execute], headers *)

Module BalanceExecuteSpec.
Import Js JsFacts Balance BalanceSpec BalanceExecute.

(** *** [reduceResponse] *)

Lemma fold_reduceResponse_step (rs : list ResponseWithResult) (acc : Reduced) :
  fold_left reduceResponse_step rs acc
  = {| data_responses := data_responses acc ++ map response rs;
       data_result := data_result acc ++ map result rs;
       status := status acc |}.
Proof.
  revert acc. induction rs as [|r rs IH]; intros acc.
  - cbn. rewrite !app_nil_r. by destruct acc.
  - cbn [fold_left map]. rewrite IH. cbn. by rewrite <- !app_assoc.
Qed.

Lemma reduceResponse_fields (rs : list ResponseWithResult) :
  reduceResponse rs
  = {| data_responses := map response rs; data_result := map result rs; status := 200 |}.
Proof. unfold reduceResponse. by rewrite fold_reduceResponse_step. Qed.

(** X13: [reduceResponse] answers with status 200 and two arrays as long as
    its input, the responses and the results of the items in their order;
    the warning of an item is not part of the answer, which is the same for
    the items without their warnings. *)
Theorem reduceResponse_arrays (rs : list ResponseWithResult) :
  data_responses (reduceResponse rs) = map response rs /\
  data_result (reduceResponse rs) = map result rs /\
  status (reduceResponse rs) = 200 /\
  length (data_result (reduceResponse rs)) = length rs /\
  reduceResponse (map withoutWarning rs) = reduceResponse rs.
Proof.
  rewrite !reduceResponse_fields. cbn.
  split; [done|]. split; [done|]. split; [done|].
  split; [by rewrite length_map|].
  by rewrite !map_map.
Qed.

(** *** What a fulfilled batch holds *)

Section Endpoint.
Context (I : Imports).

Lemma coin_defaultCoin_effective (addr : Address) :
  coin (defaultCoin addr) = Some (effectiveCoin addr).
Proof.
  unfold effectiveCoin, defaultCoin.
  destruct (coin addr) as [[|c s]|] eqn:E; cbn; rewrite ?E; done.
Qed.

Lemma chain_defaultChain_effective (addr : Address) :
  chain (defaultChain (defaultCoin addr)) = Some (effectiveChain addr).
Proof.
  unfold effectiveChain, defaultChain.
  destruct (chain (defaultCoin addr)) as [[|c s]|] eqn:E; cbn; rewrite ?E; done.
Qed.

Lemma getBalance_itemResult hdrs addr r :
  fst (getBalance I hdrs addr) = Fulfilled r -> itemResult I addr r.
Proof.
  destruct (unsupportedReason I addr) as [w|] eqn:Hw.
  { rewrite (getBalance_warned I hdrs addr w Hw). intros [= <-].
    unfold itemResult. by rewrite Hw. }
  unfold itemResult. rewrite Hw. revert Hw.
  unfold unsupportedReason, getBalance.
  destruct (negb (truthy_opt truthy_string (address addr))); [done|].
  fold (effectiveCoin addr).
  destruct (negb (isCoinType I (effectiveCoin addr))); [done|].
  fold (effectiveChain addr).
  destruct (negb (isChainType I (effectiveChain addr))); [done|]. intros _.
  destruct (getBlockchainHeader I _ _) as [e|h]; [done|].
  destruct (request I _) as [d|]; [|done].
  destruct (payload_value d) as [v|] eqn:Hv; [|done].
  cbn [fst]. intros [= <-]. cbn.
  rewrite address_defaultChain, address_defaultCoin. split; [done|]. split; [done|].
  exists d, v. split; [done|]. split; [done|].
  unfold withBalance.
  by rewrite address_defaultChain, address_defaultCoin, coin_defaultChain,
    coin_defaultCoin_effective, chain_defaultChain_effective.
Qed.

Lemma promiseAll_Fulfilled_inv {A} (l : list (Settled A)) (rs : list A) :
  promiseAll l = Fulfilled rs -> l = map Fulfilled rs.
Proof.
  unfold promiseAll.
  destruct (List.find isThrownString l) as [x|] eqn:E1.
  { apply find_some in E1 as [_ Hx]. by destruct x as [a|[s| |]]. }
  destruct (List.find isRejected l) as [x|] eqn:E2.
  { apply find_some in E2 as [_ Hx]. by destruct x as [a|e]. }
  intros [= <-]. clear E1.
  induction l as [|x l IH]; [done|].
  cbn in E2. destruct x as [a|e]; [|done]. cbn in E2.
  cbn. f_equal. by apply IH.
Qed.

Lemma mapAddresses_itemResult hdrs addresses rs :
  mapAddresses I hdrs addresses = map Fulfilled rs ->
  Forall2 (itemResult I) addresses rs.
Proof.
  revert hdrs rs. induction addresses as [|a rest IH]; intros hdrs rs.
  - destruct rs; [constructor | done].
  - cbn [mapAddresses]. destruct (getBalance I hdrs a) as [out hdrs1] eqn:E.
    destruct rs as [|r rs]; [done|]. cbn [map]. intros [= -> Hrest].
    constructor.
    + apply (getBalance_itemResult hdrs). by rewrite E.
    + by apply (IH hdrs1).
Qed.

Lemma getBalances_itemResult api addresses rs :
  getBalances I api addresses = Fulfilled rs -> Forall2 (itemResult I) addresses rs.
Proof.
  unfold getBalances. intros H%promiseAll_Fulfilled_inv.
  by apply (mapAddresses_itemResult (headers api)).
Qed.

(** X14: a batch is answered as a whole or not at all.  When [getBalances]
    fulfils, it holds one result per address, in order, each for the
    address of its position: a warned item echoes its address as given with
    a zero balance and no response, a looked-up item carries the coin and
    the chain it was looked up with (the defaults included), the balance
    from the payload of its response, and no warning. *)
Theorem fulfilled_batch_results api addresses rs :
  getBalances I api addresses = Fulfilled rs ->
  Forall2 (itemResult I) addresses rs /\ length rs = length addresses.
Proof.
  intros HF%getBalances_itemResult.
  split; [done|]. symmetry. by eapply Forall2_length.
Qed.

(** *** The shared headers *)

Lemma getBalance_headers hdrs addr :
  snd (getBalance I hdrs addr) = hdrs \/
  exists h,
    unsupportedReason I addr = None /\
    getBlockchainHeader I (effectiveChain addr) (effectiveCoin addr) = inr h /\
    snd (getBalance I hdrs addr) = <[blockchainIdHeader := h]> hdrs.
Proof.
  unfold unsupportedReason, getBalance.
  destruct (negb (truthy_opt truthy_string (address addr))); [by left|].
  fold (effectiveCoin addr).
  destruct (negb (isCoinType I (effectiveCoin addr))); [by left|].
  fold (effectiveChain addr).
  destruct (negb (isChainType I (effectiveChain addr))); [by left|].
  rewrite coin_defaultChain. fold (effectiveCoin addr).
  destruct (getBlockchainHeader I _ _) as [e|h]; [by left|].
  right. exists h. split; [done|]. split; [done|].
  destruct (request I _) as [d|]; [|done]. by destruct (payload_value d).
Qed.

Lemma getBalance_headers_lookup hdrs addr h :
  unsupportedReason I addr = None ->
  getBlockchainHeader I (effectiveChain addr) (effectiveCoin addr) = inr h ->
  snd (getBalance I hdrs addr) = <[blockchainIdHeader := h]> hdrs.
Proof.
  unfold unsupportedReason, getBalance.
  destruct (negb (truthy_opt truthy_string (address addr))); [done|].
  fold (effectiveCoin addr).
  destruct (negb (isCoinType I (effectiveCoin addr))); [done|].
  fold (effectiveChain addr).
  destruct (negb (isChainType I (effectiveChain addr))); [done|].
  rewrite coin_defaultChain. fold (effectiveCoin addr). intros _ ->.
  destruct (request I _) as [d|]; [|done]. by destruct (payload_value d).
Qed.

Lemma headersAfter_snoc hdrs addresses addr :
  headersAfter I hdrs (addresses ++ [addr])
  = snd (getBalance I (headersAfter I hdrs addresses) addr).
Proof. unfold headersAfter. by rewrite fold_left_app. Qed.

(** X15: the callbacks write into the headers object of the configuration
    itself.  Whatever the batch, every header other than
    [x-amberdata-blockchain-id] (the API key, say) is after the batch what
    it was before; and after a batch whose last item is looked up, the
    object is left holding the blockchain header of that item. *)
Theorem headers_after_batch hdrs addresses :
  (forall k, k <> blockchainIdHeader ->
     headersAfter I hdrs addresses !! k = hdrs !! k) /\
  (forall addr h,
     unsupportedReason I addr = None ->
     getBlockchainHeader I (effectiveChain addr) (effectiveCoin addr) = inr h ->
     headersAfter I hdrs (addresses ++ [addr]) !! blockchainIdHeader = Some h).
Proof.
  split.
  - intros k Hk. revert hdrs. unfold headersAfter.
    induction addresses as [|a rest IH]; intros hdrs; [done|].
    cbn [fold_left]. rewrite IH.
    destruct (getBalance_headers hdrs a) as [-> | (h & _ & _ & ->)]; [done|].
    by rewrite lookup_insert_ne.
  - intros addr h Hw Hh.
    rewrite headersAfter_snoc, (getBalance_headers_lookup _ addr h Hw Hh).
    apply lookup_insert_eq.
Qed.

End Endpoint.

(** *** [execute] *)

Section Execute.
Context (I : Imports) (X : ExecuteImports).

(** [execute] rethrows the error of the validator; without one, when what
    lies at the data path is not an array or is an empty array, it throws
    an [AdapterError] with status code 400, the job id of the request and a
    message that names the path; the path is [DEFAULT_DATA_PATH] when the
    request gives none or an empty one. *)
Lemma execute_invalid_input api request :
  let v := newValidator X request in
  (forall e, error v = Some e -> execute I X api request = inl (ThrownValidation e)) /\
  (error v = None ->
   (objectPath_get X request (dataPathOf X v) = NotAnArray \/
    objectPath_get X request (dataPathOf X v) = AnArray []) ->
   execute I X api request =
     inl (ThrownAdapterError
            {| jobRunID := validated_id v;
               message := nonEmptyArrayMessage (dataPathOf X v);
               statusCode := 400 |})) /\
  (truthy_opt truthy_string (validated_dataPath v) = false ->
   dataPathOf X v = DEFAULT_DATA_PATH X).
Proof.
  cbv zeta. unfold execute. split; [|split].
  - by intros e ->.
  - intros -> [-> | ->]; done.
  - unfold dataPathOf. by intros ->.
Qed.

Lemma mapAddresses_all_warned hdrs addresses :
  (forall addr, addr ∈ addresses -> is_Some (unsupportedReason I addr)) ->
  mapAddresses I hdrs addresses
  = map (fun addr => Fulfilled (warned addr (default "" (unsupportedReason I addr))))
      addresses.
Proof.
  revert hdrs. induction addresses as [|a rest IH]; intros hdrs Hall; [done|].
  destruct (Hall a) as [w Hw]; [apply elem_of_cons; by left|].
  cbn [mapAddresses map]. rewrite (getBalance_warned I hdrs a w Hw), Hw. cbn [default].
  f_equal. apply IH. intros addr Hin. apply Hall, elem_of_cons. by right.
Qed.

(** X16: a non-empty batch in which every item is stopped by one of the
    three checks (missing address, unsupported coin, invalid chain) is
    answered, whatever the provider would say, with status 200, a null
    response per item and the items as given with a zero balance: nothing
    in the answer tells such a batch from a batch of empty accounts. *)
Theorem execute_all_unsupported api request addresses :
  error (newValidator X request) = None ->
  objectPath_get X request (dataPathOf X (newValidator X request)) = AnArray addresses ->
  addresses <> [] ->
  (forall addr, addr ∈ addresses -> is_Some (unsupportedReason I addr)) ->
  execute I X api request =
    inr {| data_responses := map (fun _ => None) addresses;
           data_result := map (fun addr => withBalance addr (JNumber 0%float)) addresses;
           status := 200 |}.
Proof.
  intros Herr Hin Hne Hall. unfold execute. rewrite Herr, Hin.
  destruct addresses as [|a rest]; [done|].
  unfold getBalances. rewrite (mapAddresses_all_warned _ _ Hall).
  rewrite <- (map_map _ Fulfilled), promiseAll_map_Fulfilled, reduceResponse_fields.
  by rewrite !map_map.
Qed.

(** X17: when [execute] returns, the validator had no error, the input at
    the data path was a non-empty array, and the answer has status 200 and,
    for every address of the input in order, its response and its result,
    which is the one of [getBalances] for that address; no warning is in
    the answer. *)
Theorem execute_returns api request out :
  execute I X api request = inr out ->
  error (newValidator X request) = None /\
  status out = 200 /\
  exists addresses rs,
    objectPath_get X request (dataPathOf X (newValidator X request)) = AnArray addresses /\
    addresses <> [] /\
    getBalances I api addresses = Fulfilled rs /\
    Forall2 (itemResult I) addresses rs /\
    data_result out = map result rs /\
    data_responses out = map response rs /\
    length (data_result out) = length addresses.
Proof.
  unfold execute. destruct (error (newValidator X request)) as [e|]; [done|].
  destruct (objectPath_get X request _) as [|addresses] eqn:Hin; [done|].
  destruct addresses as [|a rest]; [done|].
  destruct (getBalances I api (a :: rest)) as [rs|e] eqn:Hb; [|done].
  intros [= <-]. split; [done|]. rewrite reduceResponse_fields. cbn.
  pose proof (getBalances_itemResult I api (a :: rest) rs Hb) as HF.
  split; [done|]. exists (a :: rest), rs.
  repeat (split; [done|]).
  rewrite length_map. symmetry. by eapply Forall2_length.
Qed.

End Execute.

Lemma fulfilled_batch_results_witness :
  let addresses := [ {| address := None; coin := None; chain := None |};
                     {| address := Some "addr1"; coin := None; chain := None |} ] in
  let rs := [ warned {| address := None; coin := None; chain := None |}
                WARNING_NO_OPERATION_MISSING_ADDRESS;
              {| response := Some {| payload_value := Some (JString "42") |};
                 result := {| acc_address := Some "addr1"; acc_coin := Some "btc";
                              acc_chain := Some "mainnet"; balance := JString "42" |};
                 warning := None |} ] in
  Forall2 (itemResult sampleImports) addresses rs /\ length rs = length addresses.
Proof.
  intros addresses rs.
  apply (fulfilled_batch_results sampleImports sampleApi addresses rs).
  vm_compute. reflexivity.
Defined.

Lemma execute_all_unsupported_witness :
  let addresses := [ {| address := None; coin := None; chain := None |};
                     {| address := Some "addr9"; coin := Some "doge"; chain := None |} ] in
  execute sampleImports sampleExecuteImports sampleApi (AnArray addresses) =
    inr {| data_responses := map (fun _ => None) addresses;
           data_result := map (fun addr => withBalance addr (JNumber 0%float)) addresses;
           status := 200 |}.
Proof.
  intros addresses.
  apply (execute_all_unsupported sampleImports sampleExecuteImports sampleApi
           (AnArray addresses) addresses).
  - reflexivity.
  - reflexivity.
  - discriminate.
  - intros addr [->|[->|H]%elem_of_cons]%elem_of_cons.
    + by eexists.
    + by eexists.
    + by apply elem_of_nil in H.
Defined.

Lemma execute_returns_witness :
  let request := AnArray [ {| address := Some "addr1"; coin := None; chain := None |} ] in
  let out := reduceResponse
               [ {| response := Some {| payload_value := Some (JString "42") |};
                    result := {| acc_address := Some "addr1"; acc_coin := Some "btc";
                                 acc_chain := Some "mainnet"; balance := JString "42" |};
                    warning := None |} ] in
  error (newValidator sampleExecuteImports request) = None /\
  status out = 200 /\
  exists addresses rs,
    objectPath_get sampleExecuteImports request
      (dataPathOf sampleExecuteImports (newValidator sampleExecuteImports request))
      = AnArray addresses /\
    addresses <> [] /\
    getBalances sampleImports sampleApi addresses = Fulfilled rs /\
    Forall2 (itemResult sampleImports) addresses rs /\
    data_result out = map result rs /\
    data_responses out = map response rs /\
    length (data_result out) = length addresses.
Proof.
  intros request out.
  apply (execute_returns sampleImports sampleExecuteImports sampleApi request out).
  vm_compute. reflexivity.
Defined.

(** The three outcomes of [execute] on the sample imports: an empty array
    and a missing array are refused with status code 400, and a batch with
    a bitcoin address on [testnet] fails with the thrown warning. *)
Example execute_sample_outcomes :
  (execute sampleImports sampleExecuteImports sampleApi (AnArray []),
   execute sampleImports sampleExecuteImports sampleApi NotAnArray,
   execute sampleImports sampleExecuteImports sampleApi (AnArray sampleBatch))
  = (inl (ThrownAdapterError
            {| jobRunID := "1";
               message := "Input, at 'result' path, must be a non-empty array.";
               statusCode := 400 |}),
     inl (ThrownAdapterError
            {| jobRunID := "1";
               message := "Input, at 'result' path, must be a non-empty array.";
               statusCode := 400 |}),
     inl (ThrownByGetBalances (ThrownString WARNING_NO_OPERATION_TESTNET))).
Proof. vm_compute. reflexivity. Qed.

End BalanceExecuteSpec.
